(** * Rescue Chef: a shallow embedding of the application state logic

    The development follows the TypeScript sources:
    - [types.ts]   : the data model ([Recipe], [AppState], ...);
    - [App.tsx]    : the score normaliser, the persistence effect, the
                     event handlers and the state updates they enqueue;
    - [services/geminiService.ts] : the shape of the data, and the parts
                     that compute on an answer (the names of a scan, image
                     URLs, the recommendation flag, the decoded audio);
    - [components/Timer.tsx] : the step timer.

    Conventions of the embedding.
    - A JavaScript [number] is [NaN], an infinity, or an exact rational.
      Every finite double is a rational, so every runtime number has an
      image here; products, quotients and sums are exact and a decimal
      text is read exactly (binary64 rounding and the sign of zero are not
      represented). Where a product or a parsed text comes within a
      rounding error of a half, the runtime may round to the neighbouring
      integer; the normaliser is therefore also written over IEEE
      binary64 ([normalizeScore_binary64]) and its listed values are
      computed there as well.
    - A value of type [any] that is a primitive is a [primitive]; a value
      parsed from JSON is a [JsValue].
    - React state: a handler reads the state of the render it was created
      in and enqueues commands ([Cmd]); [run] applies them. *)

From Stdlib Require Import ZArith QArith Qround Lia Ascii String SpecFloat.
From stdpp Require Import base option list strings gmap.

Set Warnings "-register-all".
Open Scope Z_scope.

(** ** JavaScript values *)

Module Js.

Inductive number : Type :=
| NaN
| PInf
| NInf
| Fin (q : Q).

Definition of_Z (z : Z) : number := Fin (inject_Z z).

Inductive primitive : Type :=
| PUndefined
| PNull
| PBool (b : bool)
| PNumber (n : number)
| PString (s : string).

(** A JSON document. The properties of an object are a finite map; reading
    a missing property gives [undefined]. *)
Inductive JsValue : Type :=
| JPrim (p : primitive)
| JArray (l : list JsValue)
| JObject (o : gmap string JsValue).

Abbreviation JUndefined := (JPrim PUndefined).
Abbreviation JNull := (JPrim PNull).
Abbreviation JNumber n := (JPrim (PNumber n)).
Abbreviation JString s := (JPrim (PString s)).
Abbreviation JBool b := (JPrim (PBool b)).

(** *** Arithmetic and comparison on numbers *)

Definition Qltb (a b : Q) : bool := negb (Qle_bool b a).

(** [x < y]: false as soon as one side is [NaN]. *)
Definition lt (x y : number) : bool :=
  match x, y with
  | NaN, _ | _, NaN => false
  | PInf, _ => false
  | _, NInf => false
  | NInf, _ => true
  | _, PInf => true
  | Fin a, Fin b => Qltb a b
  end.

(** [x > y] *)
Definition gt (x y : number) : bool := lt y x.

(** [x <= y] *)
Definition le (x y : number) : bool :=
  match x, y with
  | NaN, _ | _, NaN => false
  | NInf, _ => true
  | _, PInf => true
  | PInf, _ => false
  | _, NInf => false
  | Fin a, Fin b => Qle_bool a b
  end.

(** [x === y] on numbers: [NaN] differs from everything, itself included. *)
Definition eqb (x y : number) : bool :=
  match x, y with
  | PInf, PInf | NInf, NInf => true
  | Fin a, Fin b => Qeq_bool a b
  | _, _ => false
  end.

Definition neg (x : number) : number :=
  match x with
  | NaN => NaN
  | PInf => NInf
  | NInf => PInf
  | Fin a => Fin (- a)
  end.

(** The infinity that has the sign of [a], [NaN] when [a] is zero. *)
Definition inf_signed (a : Q) : number :=
  if Qltb 0 a then PInf else if Qltb a 0 then NInf else NaN.

Definition add (x y : number) : number :=
  match x, y with
  | NaN, _ | _, NaN => NaN
  | PInf, NInf | NInf, PInf => NaN
  | PInf, _ | _, PInf => PInf
  | NInf, _ | _, NInf => NInf
  | Fin a, Fin b => Fin (a + b)
  end.

Definition mul (x y : number) : number :=
  match x, y with
  | NaN, _ | _, NaN => NaN
  | PInf, PInf | NInf, NInf => PInf
  | PInf, NInf | NInf, PInf => NInf
  | PInf, Fin a | Fin a, PInf => inf_signed a
  | NInf, Fin a | Fin a, NInf => inf_signed (- a)
  | Fin a, Fin b => Fin (a * b)
  end.

Definition div (x y : number) : number :=
  match x, y with
  | NaN, _ | _, NaN => NaN
  | (PInf | NInf), (PInf | NInf) => NaN
  | Fin _, (PInf | NInf) => Fin 0
  | PInf, Fin b => if Qltb b 0 then NInf else PInf
  | NInf, Fin b => if Qltb b 0 then PInf else NInf
  | Fin a, Fin b => if Qeq_bool b 0 then inf_signed a else Fin (a / b)
  end.

(** [Math.round]: the nearest integer, a tie going up. *)
Definition Math_round (x : number) : number :=
  match x with
  | Fin a => of_Z (Qfloor (a + (1 # 2)))
  | _ => x
  end.

(** Truthiness of a number: zero and [NaN] are falsy. *)
Definition truthy_number (x : number) : bool :=
  match x with
  | NaN => false
  | Fin a => negb (Qeq_bool a 0)
  | _ => true
  end.

Definition truthy_primitive (p : primitive) : bool :=
  match p with
  | PUndefined | PNull => false
  | PBool b => b
  | PNumber n => truthy_number n
  | PString s => negb (String.eqb s "")
  end.

Definition truthy (v : JsValue) : bool :=
  match v with
  | JPrim p => truthy_primitive p
  | JArray _ | JObject _ => true
  end.

(** [a || b] *)
Definition or_else (a b : JsValue) : JsValue := if truthy a then a else b.

Definition isArray (v : JsValue) : bool :=
  match v with
  | JArray _ => true
  | _ => false
  end.

(** *** Strings *)

(** [s.replace(pat, rep)] with a string pattern: only the first occurrence
    is replaced. *)
Fixpoint replace_from (pat rep s : string) : option string :=
  if String.prefix pat s
  then Some (rep +:+ String.substring (String.length pat) (String.length s) s)
  else match s with
       | EmptyString => None
       | String c s' => String c <$> replace_from pat rep s'
       end.

Definition replace (pat rep s : string) : string :=
  default s (replace_from pat rep s).

(** The white space of ASCII (the other Unicode spaces are not told apart
    from text). *)
Definition is_white_space (c : ascii) : bool :=
  let n := nat_of_ascii c in
  (n =? 32)%nat || ((9 <=? n)%nat && (n <=? 13)%nat).

Fixpoint skip_white_space (s : string) : string :=
  match s with
  | String c s' => if is_white_space c then skip_white_space s' else s
  | EmptyString => s
  end.

Definition digit_of (c : ascii) : option Z :=
  let n := nat_of_ascii c in
  if (48 <=? n)%nat && (n <=? 57)%nat then Some (Z.of_nat (n - 48)) else None.

(** The longest prefix of decimal digits: its value on top of [acc], the
    number of digits read, and the rest of the string. *)
Fixpoint read_digits (s : string) (acc : Z) (count : nat) : Z * nat * string :=
  match s with
  | String c s' =>
      match digit_of c with
      | Some d => read_digits s' (10 * acc + d) (S count)
      | None => (acc, count, s)
      end
  | EmptyString => (acc, count, s)
  end.

(** An optional sign: [true] for a minus. *)
Definition read_sign (s : string) : bool * string :=
  match s with
  | String "-"%char s' => (true, s')
  | String "+"%char s' => (false, s')
  | _ => (false, s)
  end.

(** The exponent part [e[+-]digits], 0 when there is none. *)
Definition read_exponent (s : string) : Z :=
  match s with
  | String c s' =>
      if Ascii.eqb c "e" || Ascii.eqb c "E" then
        let '(minus, s'') := read_sign s' in
        let '(e, count, _) := read_digits s'' 0 0 in
        if (count =? 0)%nat then 0 else if minus then - e else e
      else 0
  | EmptyString => 0
  end.

(** [parseFloat]: leading white space is skipped, then the longest prefix
    that is a decimal literal is read; [NaN] when there is none. *)
Definition parseFloat (s : string) : number :=
  let '(minus, s1) := read_sign (skip_white_space s) in
  let sign := fun x => if minus then neg x else x in
  if String.prefix "Infinity" s1 then sign PInf else
  let '(int_part, int_count, s2) := read_digits s1 0 0 in
  let '(mantissa, frac_count, s3) :=
    match s2 with
    | String "."%char s2' =>
        let '(m, total, s3) := read_digits s2' int_part int_count in
        (m, (total - int_count)%nat, s3)
    | _ => (int_part, 0%nat, s2)
    end in
  if ((int_count + frac_count)%nat =? 0)%nat then NaN else
  let e := read_exponent s3 - Z.of_nat frac_count in
  sign (Fin (inject_Z mantissa * Qpower (10 # 1) e)).

(** [parseInt(s, 10)] *)
Definition parseInt10 (s : string) : number :=
  let '(minus, s1) := read_sign (skip_white_space s) in
  let '(n, count, _) := read_digits s1 0 0 in
  if (count =? 0)%nat then NaN else of_Z (if minus then - n else n).

(** [String(p)] for the primitives whose text is fixed. The text of a
    number is the decimal literal that reads back as that number; it is
    not spelled out, see [parseFloat_String_replace]. *)
Definition String_ (p : primitive) : option string :=
  match p with
  | PUndefined => Some "undefined"
  | PNull => Some "null"
  | PBool true => Some "true"
  | PBool false => Some "false"
  | PString s => Some s
  | PNumber _ => None
  end.

(** [parseFloat(String(raw).replace(pat, rep))] where [pat] is not a piece
    of a numeric literal: the text of a number contains no [pat] and
    [parseFloat] gives the number back. *)
Definition parseFloat_String_replace (pat rep : string) (raw : primitive) : number :=
  match raw, String_ raw with
  | PNumber n, _ => n
  | _, Some s => parseFloat (replace pat rep s)
  | _, None => NaN
  end.

(** [s.trim()] *)
Definition trim (s : string) : string :=
  String.rev (skip_white_space (String.rev (skip_white_space s))).

(** [Array.from(new Set(l))]: the first occurrence of each element, in
    order of insertion. *)
Definition Set_from (l : list string) : list string :=
  fold_left (fun seen x => if bool_decide (x ∈ seen) then seen else seen ++ [x]) l [].

End Js.

(** *** Numbers at the precision of the runtime

    IEEE binary64 with round-to-nearest-even, for the arithmetic of the
    normaliser. *)

Module Binary64.

Definition prec : Z := 53.
Definition emax : Z := 1024.

Definition of_Z (z : Z) : spec_float := binary_normalize prec emax z 0 false.

Definition lt (x y : spec_float) : bool := SFltb x y.
Definition gt (x y : spec_float) : bool := SFltb y x.
Definition mul (x y : spec_float) : spec_float := SFmul prec emax x y.
Definition div (x y : spec_float) : spec_float := SFdiv prec emax x y.

(** [Math.round]: a float with a fractional part is [±m * 2^e] with
    [e < 0]; the floor of that plus one half is an integer below 2^53,
    which is a float. *)
Definition Math_round (x : spec_float) : spec_float :=
  match x with
  | S754_finite s m e =>
      if e <? 0 then
        let n := cond_Zopp s (Zpos m) in
        binary_normalize prec emax ((n + 2 ^ (- e - 1)) / 2 ^ (- e)) 0 s
      else x
  | _ => x
  end.

End Binary64.

(** ** The data model ([types.ts]) *)

Inductive AppScreen : Type :=
| LANDING
| RESULT
| SHOPPING
| COOKING
| COOKBOOK
| RECIPE_DETAIL
| SUCCESS.

Inductive SafetyRisk : Type := RiskNone | RiskLow | RiskHigh.

Inductive Difficulty : Type := Easy | Medium | Chef.

Inductive SaveType : Type := HACK_IT | SHOP_IT.

Inductive Mode : Type := HACK | SHOP.

Module SubstitutionHack.
Record t : Type := mk {
  missing_item : string;
  suggested_hack : string;
  suggested_quantity : string;
  effectiveness_score : Js.number;
  safety_risk : SafetyRisk;
  reason : string
}.
End SubstitutionHack.

Module Ingredient.
Record t : Type := mk {
  name : string;
  quantity : string
}.
End Ingredient.

Module SafetyFactor.
Record t : Type := mk {
  name : string;
  score : Js.number;
  icon : string
}.
End SafetyFactor.

(** The optional members [imageUrl], [type] and [savedDate] are options.
    For [imageUrl], [None] is the value [null] that the detail view puts
    there; every recipe that enters the state carries the member. *)
Module Recipe.
Record t : Type := mk {
  id : string;
  name : string;
  description : string;
  ingredients : list Ingredient.t;
  already_have : list Ingredient.t;
  need_to_buy : list Ingredient.t;
  estimated_shopping_cost : Js.number;
  steps : list string;
  hacks : list SubstitutionHack.t;
  prepTime : string;
  totalTime : string;
  servings : Js.number;
  difficulty : Difficulty;
  isHackRecommended : bool;
  safety_score : Js.number;
  safety_factors : list SafetyFactor.t;
  tips : list string;
  savings_dh : Js.number;
  co2_saved_kg : Js.number;
  waste_avoided_g : Js.number;
  imageUrl : option string;
  type : option SaveType;
  savedDate : option string
}.

(** [{ ...r, imageUrl: v }] *)
Definition with_imageUrl (v : option string) (r : t) : t :=
  mk (id r) (name r) (description r) (ingredients r) (already_have r)
     (need_to_buy r) (estimated_shopping_cost r) (steps r) (hacks r)
     (prepTime r) (totalTime r) (servings r) (difficulty r)
     (isHackRecommended r) (safety_score r) (safety_factors r) (tips r)
     (savings_dh r) (co2_saved_kg r) (waste_avoided_g r)
     v (type r) (savedDate r).

(** [{ ...r, type: ty, savedDate: date }] *)
Definition with_type_savedDate (ty : SaveType) (date : string) (r : t) : t :=
  mk (id r) (name r) (description r) (ingredients r) (already_have r)
     (need_to_buy r) (estimated_shopping_cost r) (steps r) (hacks r)
     (prepTime r) (totalTime r) (servings r) (difficulty r)
     (isHackRecommended r) (safety_score r) (safety_factors r) (tips r)
     (savings_dh r) (co2_saved_kg r) (waste_avoided_g r)
     (imageUrl r) (Some ty) (Some date).
End Recipe.

Module AppState.
Record t : Type := mk {
  screen : AppScreen;
  city : string;
  currentRecipe : option Recipe.t;
  selectedCookbookRecipe : option Recipe.t;
  scannedIngredients : list string;
  wasteSaved : Js.number;
  cookbook : list Recipe.t;
  selectedMode : option Mode
}.

(** The updates [{ ...prev, field: v }], one per field. *)
Definition with_screen (v : AppScreen) (s : t) : t :=
  mk v (city s) (currentRecipe s) (selectedCookbookRecipe s)
     (scannedIngredients s) (wasteSaved s) (cookbook s) (selectedMode s).
Definition with_city (v : string) (s : t) : t :=
  mk (screen s) v (currentRecipe s) (selectedCookbookRecipe s)
     (scannedIngredients s) (wasteSaved s) (cookbook s) (selectedMode s).
Definition with_currentRecipe (v : option Recipe.t) (s : t) : t :=
  mk (screen s) (city s) v (selectedCookbookRecipe s)
     (scannedIngredients s) (wasteSaved s) (cookbook s) (selectedMode s).
Definition with_selectedCookbookRecipe (v : option Recipe.t) (s : t) : t :=
  mk (screen s) (city s) (currentRecipe s) v
     (scannedIngredients s) (wasteSaved s) (cookbook s) (selectedMode s).
Definition with_scannedIngredients (v : list string) (s : t) : t :=
  mk (screen s) (city s) (currentRecipe s) (selectedCookbookRecipe s)
     v (wasteSaved s) (cookbook s) (selectedMode s).
Definition with_wasteSaved (v : Js.number) (s : t) : t :=
  mk (screen s) (city s) (currentRecipe s) (selectedCookbookRecipe s)
     (scannedIngredients s) v (cookbook s) (selectedMode s).
Definition with_cookbook (v : list Recipe.t) (s : t) : t :=
  mk (screen s) (city s) (currentRecipe s) (selectedCookbookRecipe s)
     (scannedIngredients s) (wasteSaved s) v (selectedMode s).
Definition with_selectedMode (v : option Mode) (s : t) : t :=
  mk (screen s) (city s) (currentRecipe s) (selectedCookbookRecipe s)
     (scannedIngredients s) (wasteSaved s) (cookbook s) v.
End AppState.

(** ** The application component ([App.tsx]) *)

Module App.
Import Js.

(** The React state of the component that the handlers below write: the
    application state, the index of the cooking step and the notice. The
    text inputs are arguments of the handlers that read them; the flags
    that only drive the display (loading, theme, edit toggles) are left
    out. *)
Record Component : Type := mkComponent {
  state : AppState.t;
  currentStepIndex : Z;
  toast : option string
}.

(** What a handler enqueues: [setState(prev => ...)],
    [setCurrentStepIndex(i)], [setToast(m)]. *)
Inductive Cmd : Type :=
| SetState (update : AppState.t → AppState.t)
| SetCurrentStepIndex (i : Z)
| SetToast (message : option string).

Definition run_cmd (k : Component) (c : Cmd) : Component :=
  match c with
  | SetState update => mkComponent (update (state k)) (currentStepIndex k) (toast k)
  | SetCurrentStepIndex i => mkComponent (state k) i (toast k)
  | SetToast message => mkComponent (state k) (currentStepIndex k) message
  end.

Definition run (cmds : list Cmd) (k : Component) : Component :=
  fold_left run_cmd cmds k.

(** An event handler of the render of [k], run on [k] itself: each update
    is rendered before the next event is delivered. *)
Definition dispatch (handler : AppState.t → list Cmd) (k : Component) : Component :=
  run (handler (state k)) k.

Definition defaultState : AppState.t :=
  AppState.mk LANDING "" None None [] (of_Z 0) [] None.

(** [normalizeScore] *)
Definition normalizeScore (raw : primitive) : number :=
  let num := parseFloat_String_replace "%" "" raw in
  let num := if gt num (of_Z 0) && lt num (of_Z 1) then mul num (of_Z 100) else num in
  let num := if gt num (of_Z 100) then div num (of_Z 100) else num in
  Math_round num.

(** The arithmetic of [normalizeScore] on the parsed number, in binary64. *)
Definition normalizeScore_binary64 (num : spec_float) : spec_float :=
  let num := if Binary64.gt num (Binary64.of_Z 0) && Binary64.lt num (Binary64.of_Z 1)
             then Binary64.mul num (Binary64.of_Z 100) else num in
  let num := if Binary64.gt num (Binary64.of_Z 100)
             then Binary64.div num (Binary64.of_Z 100) else num in
  Binary64.Math_round num.

(** The copy of the state that the persistence effect serialises. *)
Definition stateToSave (state : AppState.t) : AppState.t :=
  AppState.with_selectedCookbookRecipe
    (Recipe.with_imageUrl (Some "") <$> AppState.selectedCookbookRecipe state)
    (AppState.with_currentRecipe
       (Recipe.with_imageUrl (Some "") <$> AppState.currentRecipe state)
       (AppState.with_cookbook
          (Recipe.with_imageUrl (Some "") <$> AppState.cookbook state)
          state)).

(** [showToast]; the timer it starts later runs [showToast_timeout]. *)
Definition showToast (message : string) : list Cmd := [SetToast (Some message)].

Definition showToast_timeout : list Cmd := [SetToast None].

(** A string-or-null used as a condition. *)
Definition truthy_string (s : option string) : bool :=
  match s with
  | Some s => negb (String.eqb s "")
  | None => false
  end.

(** [handleScan], from the point where the service has answered. *)
Definition handleScan (ingredients : list string) : list Cmd :=
  SetState (fun prev =>
    AppState.with_scannedIngredients
      (Set_from (AppState.scannedIngredients prev ++ ingredients)) prev)
  :: showToast "📸 Pantry Scanned".

(** [generateDecision]: [response] is the recipe the service answers with,
    [None] when the request fails. *)
Definition generateDecision (inputQuery : string) (response : option Recipe.t) : list Cmd :=
  if negb (truthy_string (Some inputQuery)) then [] else
  match response with
  | Some recipe =>
      let recipe := Recipe.with_imageUrl (Some "") recipe in
      [SetState (fun prev =>
         AppState.with_selectedMode None
           (AppState.with_screen RESULT
              (AppState.with_currentRecipe (Some recipe) prev)))]
  | None => []
  end.

(** The continuation of [generateDecision] that receives the illustration
    requested for [recipe]. *)
Definition generateDecision_illustration (recipe : Recipe.t) (illustration : option string) : list Cmd :=
  if truthy_string illustration then
    [SetState (fun prev =>
       match AppState.currentRecipe prev with
       | Some current =>
           if String.eqb (Recipe.id current) (Recipe.id recipe)
           then AppState.with_currentRecipe
                  (Some (Recipe.with_imageUrl illustration current)) prev
           else prev
       | None => prev
       end)]
  else [].

(** [handleMagicEdit]: [newImage] is the answer of the service. *)
Definition handleMagicEdit (editImagePrompt : string) (newImage : option string)
    (state : AppState.t) : list Cmd :=
  let activeRecipe :=
    match AppState.selectedCookbookRecipe state with
    | Some r => Some r
    | None => AppState.currentRecipe state
    end in
  match activeRecipe with
  | None => []
  | Some activeRecipe =>
      if negb (truthy_string (Recipe.imageUrl activeRecipe))
         || negb (truthy_string (Some (trim editImagePrompt)))
      then []
      else if truthy_string newImage then
        let updatedRecipe := Recipe.with_imageUrl newImage activeRecipe in
        (match AppState.screen state with
         | RECIPE_DETAIL =>
             SetState (fun prev =>
               AppState.with_cookbook
                 ((fun r => if String.eqb (Recipe.id r) (Recipe.id updatedRecipe)
                            then updatedRecipe else r) <$> AppState.cookbook prev)
                 (AppState.with_selectedCookbookRecipe (Some updatedRecipe) prev))
         | _ =>
             SetState (fun prev => AppState.with_currentRecipe (Some updatedRecipe) prev)
         end) :: showToast "✨ Image Updated!"
      else showToast "❌ Edit Failed"
  end.

(** [isRecipeSaved] *)
Definition isRecipeSaved (state : AppState.t) (recipeId : option string) : bool :=
  match recipeId with
  | Some rid =>
      if negb (truthy_string recipeId) then false
      else existsb (fun r => String.eqb (Recipe.id r) rid) (AppState.cookbook state)
  | None => false
  end.

(** [saveRecipe]: [today] is [new Date().toLocaleDateString()]. *)
Definition saveRecipe (type : SaveType) (today : string) (state : AppState.t) : list Cmd :=
  match AppState.currentRecipe state with
  | None => []
  | Some current =>
      if isRecipeSaved state (Some (Recipe.id current))
      then showToast "Already Saved"
      else
        let recipeToSave := Recipe.with_type_savedDate type today current in
        SetState (fun prev =>
          AppState.with_cookbook (recipeToSave :: AppState.cookbook prev) prev)
        :: showToast "✅ Recipe saved to Cookbook!"
  end.

(** [addIngredient] *)
Definition addIngredient (newIngredientName : string) : list Cmd :=
  if negb (truthy_string (Some (trim newIngredientName))) then [] else
  SetState (fun prev =>
    AppState.with_scannedIngredients
      (AppState.scannedIngredients prev ++ [trim newIngredientName]) prev)
  :: showToast "➕ Added".

(** [l.filter((_, i) => keep(i))] *)
Fixpoint filter_index {A : Type} (keep : Z → bool) (i : Z) (l : list A) : list A :=
  match l with
  | [] => []
  | x :: l' =>
      if keep i then x :: filter_index keep (i + 1) l'
      else filter_index keep (i + 1) l'
  end.

(** [removeIngredient] *)
Definition removeIngredient (idx : number) : list Cmd :=
  [SetState (fun prev =>
     AppState.with_scannedIngredients
       (filter_index (fun i => negb (eqb (of_Z i) idx)) 0
          (AppState.scannedIngredients prev))
       prev)].

(** [finishCooking] *)
Definition finishCooking (state : AppState.t) : list Cmd :=
  match AppState.currentRecipe state with
  | None => []
  | Some currentRecipe =>
      let savings :=
        match AppState.selectedMode state with
        | Some HACK =>
            if truthy_number (Recipe.savings_dh currentRecipe)
            then Recipe.savings_dh currentRecipe else of_Z 5
        | _ => of_Z 5
        end in
      [SetState (fun prev =>
         AppState.with_screen SUCCESS
           (AppState.with_wasteSaved (add (AppState.wasteSaved prev) savings) prev))]
  end.

(** The recipe of the detail view as it arrives from JSON: any object.
    [prop o key] reads a property. *)
Definition prop (o : gmap string JsValue) (key : string) : JsValue :=
  default JUndefined (o !! key).

(** [safeRecipe] of [renderRecipeDetail], on the object as it is. *)
Definition safeRecipe (recipe : gmap string JsValue) : gmap string JsValue :=
  let array_or_empty := fun key =>
    if isArray (prop recipe key) then prop recipe key else JArray [] in
  <["imageUrl" := or_else (prop recipe "imageUrl") JNull]>
  (<["description" := or_else (prop recipe "description") (JString "")]>
  (<["name" := or_else (prop recipe "name") (JString "Untitled Recipe")]>
  (<["difficulty" := or_else (prop recipe "difficulty") (JString "Medium")]>
  (<["safety_score" := or_else (prop recipe "safety_score") (JNumber (of_Z 0))]>
  (<["need_to_buy" := array_or_empty "need_to_buy"]>
  (<["already_have" := array_or_empty "already_have"]>
  (<["safety_factors" := array_or_empty "safety_factors"]>
  (<["tips" := array_or_empty "tips"]>
  (<["steps" := array_or_empty "steps"]>
  (<["ingredients" := array_or_empty "ingredients"]>
  (<["hacks" := array_or_empty "hacks"]> recipe))))))))))).

(** [safeRecipe] on a recipe that has the declared type: the list members
    are arrays and [difficulty] is one of its three names, so these stay. *)
Definition safeRecipe_typed (recipe : Recipe.t) : Recipe.t :=
  Recipe.mk (Recipe.id recipe)
    (if truthy_string (Some (Recipe.name recipe))
     then Recipe.name recipe else "Untitled Recipe")
    (if truthy_string (Some (Recipe.description recipe))
     then Recipe.description recipe else "")
    (Recipe.ingredients recipe) (Recipe.already_have recipe)
    (Recipe.need_to_buy recipe) (Recipe.estimated_shopping_cost recipe)
    (Recipe.steps recipe) (Recipe.hacks recipe)
    (Recipe.prepTime recipe) (Recipe.totalTime recipe) (Recipe.servings recipe)
    (Recipe.difficulty recipe) (Recipe.isHackRecommended recipe)
    (if truthy_number (Recipe.safety_score recipe)
     then Recipe.safety_score recipe else of_Z 0)
    (Recipe.safety_factors recipe) (Recipe.tips recipe)
    (Recipe.savings_dh recipe) (Recipe.co2_saved_kg recipe)
    (Recipe.waste_avoided_g recipe)
    (if truthy_string (Recipe.imageUrl recipe)
     then Recipe.imageUrl recipe else None)
    (Recipe.type recipe) (Recipe.savedDate recipe).

(** *** Events

    The buttons and inputs of the render functions and the answers of the
    service. An answer carries what its handler captured when the request
    was made. *)
Inductive Event : Type :=
| HeaderLogo
| ScanAnswered (ingredients : list string)
| RemoveIngredient (i : Z)
| AddIngredient (newIngredientName : string)
| CityChange (value : string)
| GenerateAnswered (inputQuery : string) (response : option Recipe.t)
| IllustrationAnswered (recipe : Recipe.t) (illustration : option string)
| MyCookbook
| ResultBack
| ResultSave (type : SaveType) (today : string)
| CookWithHacks
| GoShoppingFirst
| CookbookBack
| CookbookSelect (i : nat)
| DetailBack
| CookNow
| MagicEditAnswered (captured : AppState.t) (editImagePrompt : string) (newImage : option string)
| ShoppingBack
| StartCooking
| CookingBack
| CookingPrev
| CookingNext
| SuccessSave (today : string)
| GoHome
| ToastTimeout.

Definition screen_is (k : Component) (s : AppScreen) : bool :=
  match AppState.screen (state k), s with
  | LANDING, LANDING | RESULT, RESULT | SHOPPING, SHOPPING | COOKING, COOKING
  | COOKBOOK, COOKBOOK | RECIPE_DETAIL, RECIPE_DETAIL | SUCCESS, SUCCESS => true
  | _, _ => false
  end.

(** [state.selectedCookbookRecipe || state.currentRecipe] *)
Definition detailRecipe (state : AppState.t) : option Recipe.t :=
  match AppState.selectedCookbookRecipe state with
  | Some r => Some r
  | None => AppState.currentRecipe state
  end.

(** Which control the render of [k] offers. [renderResult],
    [renderRecipeDetail], [renderCooking] and [renderSuccess] return
    nothing without their recipe; the header is absent from the success
    and detail screens; the remove button belongs to an item of the
    pantry; [Prev] is disabled at index 0. The answers of the service may
    arrive at any time; the edit they answer was asked from the detail
    screen. *)
Definition enabled (k : Component) (ev : Event) : bool :=
  match ev with
  | HeaderLogo => negb (screen_is k SUCCESS) && negb (screen_is k RECIPE_DETAIL)
  | ScanAnswered _ | GenerateAnswered _ _ | IllustrationAnswered _ _ | ToastTimeout => true
  | RemoveIngredient i =>
      screen_is k LANDING && (0 <=? i)
      && (i <? Z.of_nat (length (AppState.scannedIngredients (state k))))
  | AddIngredient _ | CityChange _ | MyCookbook => screen_is k LANDING
  | ResultBack | ResultSave _ _ | CookWithHacks | GoShoppingFirst =>
      screen_is k RESULT && bool_decide (is_Some (AppState.currentRecipe (state k)))
  | CookbookBack => screen_is k COOKBOOK
  | CookbookSelect i =>
      screen_is k COOKBOOK && bool_decide (is_Some (AppState.cookbook (state k) !! i))
  | DetailBack | CookNow =>
      screen_is k RECIPE_DETAIL && bool_decide (is_Some (detailRecipe (state k)))
  | MagicEditAnswered captured _ _ =>
      match AppState.screen captured with
      | RECIPE_DETAIL => bool_decide (is_Some (detailRecipe captured))
      | _ => false
      end
  | ShoppingBack | StartCooking => screen_is k SHOPPING
  | CookingBack | CookingNext =>
      screen_is k COOKING && bool_decide (is_Some (AppState.currentRecipe (state k)))
  | CookingPrev =>
      screen_is k COOKING && bool_decide (is_Some (AppState.currentRecipe (state k)))
      && negb (currentStepIndex k =? 0)
  | SuccessSave _ | GoHome =>
      screen_is k SUCCESS && bool_decide (is_Some (AppState.currentRecipe (state k)))
  end.

Definition goTo (s : AppScreen) : list Cmd := [SetState (AppState.with_screen s)].

(** The handler attached to each control in the render of [k]. *)
Definition handle (k : Component) (ev : Event) : list Cmd :=
  match ev with
  | HeaderLogo | ResultBack | CookbookBack | GoHome => goTo LANDING
  | ScanAnswered ingredients => handleScan ingredients
  | RemoveIngredient i => removeIngredient (of_Z i)
  | AddIngredient newIngredientName => addIngredient newIngredientName
  | CityChange value => [SetState (AppState.with_city value)]
  | GenerateAnswered inputQuery response => generateDecision inputQuery response
  | IllustrationAnswered recipe illustration =>
      generateDecision_illustration recipe illustration
  | MyCookbook => goTo COOKBOOK
  | ResultSave type today => saveRecipe type today (state k)
  | CookWithHacks =>
      let recipe := AppState.currentRecipe (state k) in
      [SetState (fun prev =>
         AppState.with_screen COOKING
           (AppState.with_selectedMode (Some HACK)
              (AppState.with_currentRecipe recipe prev)));
       SetCurrentStepIndex 0]
  | GoShoppingFirst =>
      let recipe := AppState.currentRecipe (state k) in
      [SetState (fun prev =>
         AppState.with_screen SHOPPING
           (AppState.with_selectedMode (Some SHOP)
              (AppState.with_currentRecipe recipe prev)))]
  | CookbookSelect i =>
      match AppState.cookbook (state k) !! i with
      | Some recipe =>
          [SetState (fun prev =>
             AppState.with_screen RECIPE_DETAIL
               (AppState.with_selectedCookbookRecipe (Some recipe) prev))]
      | None => []
      end
  | DetailBack =>
      [SetState (AppState.with_screen
         (if bool_decide (is_Some (AppState.selectedCookbookRecipe (state k)))
          then COOKBOOK else RESULT))]
  | CookNow =>
      match detailRecipe (state k) with
      | Some recipe =>
          [SetState (fun prev =>
             AppState.with_screen COOKING
               (AppState.with_currentRecipe (Some (safeRecipe_typed recipe)) prev));
           SetCurrentStepIndex 0]
      | None => []
      end
  | MagicEditAnswered captured editImagePrompt newImage =>
      handleMagicEdit editImagePrompt newImage captured
  | ShoppingBack | CookingBack => goTo RESULT
  | StartCooking => [SetState (AppState.with_screen COOKING); SetCurrentStepIndex 0]
  | CookingPrev => [SetCurrentStepIndex (currentStepIndex k - 1)]
  | CookingNext =>
      match AppState.currentRecipe (state k) with
      | Some recipe =>
          if currentStepIndex k =? Z.of_nat (length (Recipe.steps recipe)) - 1
          then finishCooking (state k)
          else [SetCurrentStepIndex (currentStepIndex k + 1)]
      | None => []
      end
  | SuccessSave today =>
      saveRecipe
        (match AppState.selectedMode (state k) with
         | Some HACK => HACK_IT
         | _ => SHOP_IT
         end) today (state k)
  | ToastTimeout => showToast_timeout
  end.

Definition step (k : Component) (ev : Event) : Component := run (handle k ev) k.

Definition run_events (evs : list Event) (k : Component) : Component :=
  fold_left step evs k.

(** The states the application goes through: a fresh session, an offered
    control or an answer, and a reload, which resumes from the persisted
    copy with the counter read from its own key ([w]). *)
Inductive reachable : Component → Prop :=
| reachable_fresh : reachable (mkComponent defaultState 0 None)
| reachable_step k ev :
    reachable k → enabled k ev = true → reachable (step k ev)
| reachable_reload k w :
    reachable k →
    reachable (mkComponent (AppState.with_wasteSaved w (stateToSave (state k))) 0 None).

(** *** Persistence

    The browser store is a map from keys to texts. JSON and the printing
    of numbers belong to the platform: they are parameters, and so is the
    quota, which decides whether the store accepts a content. [JSON_parse]
    gives [None] when the text is not the serialisation of a state. *)
Section Persistence.
Variable JSON_stringify : AppState.t → string.
Variable JSON_parse : string → option AppState.t.
Variable Number_toString : number → string.
Variable quota : gmap string string → bool.

(** [localStorage.setItem]: [None] when it throws. *)
Definition setItem (key value : string) (localStorage : gmap string string)
    : option (gmap string string) :=
  let written := <[key := value]> localStorage in
  if quota written then Some written else None.

(** The effect that runs on every change of [state]; a failed write is
    caught and the rest of the block is skipped. *)
Definition persist (state : AppState.t) (localStorage : gmap string string)
    : gmap string string :=
  match setItem "rescue_chef_state" (JSON_stringify (stateToSave state)) localStorage with
  | Some stored =>
      match setItem "totalSavings" (Number_toString (AppState.wasteSaved state)) stored with
      | Some stored' => stored'
      | None => stored
      end
  | None => localStorage
  end.

(** The initial value of [state]; [None] when [JSON.parse] fails. *)
Definition initialState (localStorage : gmap string string) : option AppState.t :=
  let savedState := localStorage !! "rescue_chef_state" in
  let lifetimeSaved := localStorage !! "totalSavings" in
  baseState ← (if truthy_string savedState
               then JSON_parse (default "" savedState)
               else Some defaultState);
  Some (if truthy_string lifetimeSaved
        then AppState.with_wasteSaved (parseInt10 (default "" lifetimeSaved)) baseState
        else baseState).

End Persistence.

End App.

(** ** The typed data as JSON *)

Module ToJson.
Import Js.

Definition object (members : list (string * JsValue)) : gmap string JsValue :=
  list_to_map members.

Definition difficulty (d : Difficulty) : JsValue :=
  JString match d with Easy => "Easy" | Medium => "Medium" | Chef => "Chef" end.

Definition safetyRisk (r : SafetyRisk) : JsValue :=
  JString match r with RiskNone => "None" | RiskLow => "Low" | RiskHigh => "High" end.

Definition saveType (t : SaveType) : JsValue :=
  JString match t with HACK_IT => "HACK_IT" | SHOP_IT => "SHOP_IT" end.

Definition ingredient (i : Ingredient.t) : JsValue :=
  JObject (object [("name", JString (Ingredient.name i));
                   ("quantity", JString (Ingredient.quantity i))]).

Definition hack (h : SubstitutionHack.t) : JsValue :=
  JObject (object
    [("missing_item", JString (SubstitutionHack.missing_item h));
     ("suggested_hack", JString (SubstitutionHack.suggested_hack h));
     ("suggested_quantity", JString (SubstitutionHack.suggested_quantity h));
     ("effectiveness_score", JNumber (SubstitutionHack.effectiveness_score h));
     ("safety_risk", safetyRisk (SubstitutionHack.safety_risk h));
     ("reason", JString (SubstitutionHack.reason h))]).

Definition safetyFactor (f : SafetyFactor.t) : JsValue :=
  JObject (object [("name", JString (SafetyFactor.name f));
                   ("score", JNumber (SafetyFactor.score f));
                   ("icon", JString (SafetyFactor.icon f))]).

Definition strings (l : list string) : JsValue := JArray ((fun s => JString s) <$> l).

(** A member that is written only when it is there. *)
Definition optional (key : string) (v : option JsValue) (o : gmap string JsValue)
    : gmap string JsValue :=
  match v with
  | Some v => <[key := v]> o
  | None => o
  end.

(** The members every recipe has. *)
Definition members (r : Recipe.t) : list (string * JsValue) :=
  [("id", JString (Recipe.id r));
   ("name", JString (Recipe.name r));
   ("description", JString (Recipe.description r));
   ("ingredients", JArray (ingredient <$> Recipe.ingredients r));
   ("already_have", JArray (ingredient <$> Recipe.already_have r));
   ("need_to_buy", JArray (ingredient <$> Recipe.need_to_buy r));
   ("estimated_shopping_cost", JNumber (Recipe.estimated_shopping_cost r));
   ("steps", strings (Recipe.steps r));
   ("hacks", JArray (hack <$> Recipe.hacks r));
   ("prepTime", JString (Recipe.prepTime r));
   ("totalTime", JString (Recipe.totalTime r));
   ("servings", JNumber (Recipe.servings r));
   ("difficulty", difficulty (Recipe.difficulty r));
   ("isHackRecommended", JBool (Recipe.isHackRecommended r));
   ("safety_score", JNumber (Recipe.safety_score r));
   ("safety_factors", JArray (safetyFactor <$> Recipe.safety_factors r));
   ("tips", strings (Recipe.tips r));
   ("savings_dh", JNumber (Recipe.savings_dh r));
   ("co2_saved_kg", JNumber (Recipe.co2_saved_kg r));
   ("waste_avoided_g", JNumber (Recipe.waste_avoided_g r));
   ("imageUrl", match Recipe.imageUrl r with
                | Some url => JString url
                | None => JNull
                end)].

Definition recipe (r : Recipe.t) : gmap string JsValue :=
  optional "savedDate" ((λ date, JString date) <$> Recipe.savedDate r)
    (optional "type" (saveType <$> Recipe.type r) (object (members r))).

End ToJson.


(** ** The specification's wording, where a property compares the code to it *)

Module Spec.
Import Js.

(** 4.1: "stripping a trailing % if present". *)
Fixpoint strip_trailing_percent (s : string) : string :=
  match s with
  | String c s' =>
      if Ascii.eqb c "%" && String.eqb s' "" then ""
      else String c (strip_trailing_percent s')
  | EmptyString => ""
  end.

(** 4.1: parse the leading numeric portion; a value strictly between 0 and
    1 is multiplied by 100; a value that exceeds 100 is divided by 100;
    round to the nearest integer. Both tests are on the parsed value. *)
Definition normalize (raw : primitive) : number :=
  let parsed :=
    match raw, String_ raw with
    | PNumber n, _ => n
    | _, Some s => parseFloat (strip_trailing_percent s)
    | _, None => NaN
    end in
  Math_round
    (if gt parsed (of_Z 0) && lt parsed (of_Z 1) then mul parsed (of_Z 100)
     else if gt parsed (of_Z 100) then div parsed (of_Z 100)
     else parsed).


End Spec.

(** ** Predicates of the statements *)

Import Js App.

Fixpoint contains_percent (s : string) : bool :=
  match s with
  | String c s' => Ascii.eqb c "%" || contains_percent s'
  | EmptyString => false
  end.

(** The inputs of the normaliser that the specification names: a number,
    or a text with no percent sign apart from a last one. *)
Definition numeric_like (raw : primitive) : bool :=
  match raw with
  | PNumber _ => true
  | PString s => negb (contains_percent (Spec.strip_trailing_percent s))
  | _ => false
  end.

(** No two entries of the cookbook share an id that is not empty. *)
Definition distinct_ids (cookbook : list Recipe.t) : Prop :=
  NoDup (filter (λ i, i ≠ "") (Recipe.id <$> cookbook)).



(** The screen invariant of the data model. *)
Definition detail_has_recipe (k : Component) : Prop :=
  AppState.screen (state k) = RECIPE_DETAIL →
  is_Some (AppState.currentRecipe (state k))
  ∨ is_Some (AppState.selectedCookbookRecipe (state k)).

Definition cooking_has_recipe (k : Component) : Prop :=
  AppState.screen (state k) = COOKING →
  is_Some (AppState.currentRecipe (state k)).

Definition cooking_step_in_range (k : Component) : Prop :=
  AppState.screen (state k) = COOKING →
  ∀ recipe, AppState.currentRecipe (state k) = Some recipe →
  0 ≤ currentStepIndex k < Z.of_nat (length (Recipe.steps recipe)).

(** The screens that show the current recipe after a choice was made. *)
Definition recipe_screen (s : AppScreen) : bool :=
  match s with
  | SHOPPING | COOKING | SUCCESS => true
  | _ => false
  end.

(** What holds of every state the application goes through: the detail
    screen has its cookbook recipe, the screens after the choice have the
    current recipe, and the step index is inside a list of steps that is
    not empty. *)
Definition screen_invariant (k : Component) : Prop :=
  (AppState.screen (state k) = RECIPE_DETAIL →
   is_Some (AppState.selectedCookbookRecipe (state k)))
  ∧ (recipe_screen (AppState.screen (state k)) = true →
     is_Some (AppState.currentRecipe (state k)))
  ∧ (AppState.screen (state k) = COOKING →
     ∀ recipe, AppState.currentRecipe (state k) = Some recipe →
     Recipe.steps recipe ≠ [] →
     0 ≤ currentStepIndex k < Z.of_nat (length (Recipe.steps recipe))).

(** The members that [safeRecipe] defaults. *)
Definition list_fields : list string :=
  ["hacks"; "ingredients"; "steps"; "tips"; "safety_factors"; "already_have";
   "need_to_buy"].

Definition scalar_fields : list string :=
  ["safety_score"; "difficulty"; "name"; "description"; "imageUrl"].

(** [result] has at [key] the array of [recipe] when there is one, and the
    empty array otherwise. *)
Definition array_or_empty (recipe result : gmap string JsValue) (key : string) : Prop :=
  match recipe !! key with
  | Some (JArray l) => result !! key = Some (JArray l)
  | _ => result !! key = Some (JArray [])
  end.

(** [result] has at [key] the value of [recipe] when it is truthy, and
    [fallback] when it is missing or falsy. *)
Definition falls_back (recipe result : gmap string JsValue) (key : string)
    (fallback : JsValue) : Prop :=
  match recipe !! key with
  | Some v => result !! key = Some (if truthy v then v else fallback)
  | None => result !! key = Some fallback
  end.


(** Every recipe of the state has the empty string for image. *)
Definition images_stripped (s : AppState.t) : Prop :=
  (∀ r, AppState.currentRecipe s = Some r → Recipe.imageUrl r = Some EmptyString)
  ∧ (∀ r, AppState.selectedCookbookRecipe s = Some r →
     Recipe.imageUrl r = Some EmptyString)
  ∧ Forall (λ r, Recipe.imageUrl r = Some EmptyString) (AppState.cookbook s).

(** *** Sample data *)

Definition sampleRecipe (id : string) (steps : list string) (savings_dh : number) : Recipe.t :=
  Recipe.mk id "Shakshuka" "Eggs in tomato sauce" [] [] [] (of_Z 30) steps [] "10 min"
    "25 min" (of_Z 2) Easy true (of_Z 85) [] [] savings_dh (of_Z 1) (of_Z 300)
    (Some "") None None.

Definition sampleState (screen : AppScreen) (current : option Recipe.t)
    (cookbook : list Recipe.t) (mode : option Mode) (saved : number) : AppState.t :=
  AppState.mk screen "Rabat" current None ["eggs"; "tomato"] saved cookbook mode.

Definition fresh : Component := mkComponent defaultState 0 None.

(** A recipe the service may answer with: no step at all. *)
Definition noSteps : Recipe.t := sampleRecipe "r1" [] (of_Z 20).

(** The session that asks for it and chooses to cook with hacks. *)
Definition cookingNoSteps : Component :=
  run_events [GenerateAnswered "soup" (Some noSteps); CookWithHacks] fresh.



(** A recipe whose id is the empty string, saved twice from the result
    screen. *)
Definition noId : Recipe.t := sampleRecipe EmptyString ["Chop"] (of_Z 20).

Definition savedOnce : Component :=
  run_events [GenerateAnswered "soup" (Some noId); ResultSave HACK_IT "01/02/2026"] fresh.

(** ** More of the platform: string methods *)

Module JsString.

(** [s.split(sep)] with a string separator that is not empty: the pieces
    between the occurrences of [sep], read from the left. [skip] counts
    the characters of a separator still to pass. *)
Fixpoint split_go (sep : string) (skip : nat) (s : string) : list string :=
  match s with
  | EmptyString => [EmptyString]
  | String c s' =>
      match skip with
      | S n => split_go sep n s'
      | O =>
          if String.prefix sep s
          then EmptyString :: split_go sep (String.length sep - 1) s'
          else match split_go sep 0 s' with
               | piece :: pieces => String c piece :: pieces
               | [] => [String c EmptyString]
               end
      end
  end.

Definition split (sep s : string) : list string := split_go sep 0 s.

(** [s.includes(sub)] *)
Fixpoint includes (sub s : string) : bool :=
  String.prefix sub s
  || match s with
     | String _ s' => includes sub s'
     | EmptyString => false
     end.

End JsString.

(** ** More of the component ([App.tsx]) *)

(** [x >= y] *)
Definition ge (x y : number) : bool := le y x.

(** [getSafetyColor] *)
Definition getSafetyColor (rawScore : primitive) : string :=
  let s := normalizeScore rawScore in
  if ge s (of_Z 80) then "bg-emerald-500"
  else if ge s (of_Z 60) then "bg-orange-500"
  else "bg-red-500".

(** [recommendedId] of [renderResult]: 1 marks the hack path, 2 the shop
    path. *)
Definition recommendedId (recipe : Recipe.t) : Z :=
  if ge (normalizeScore (PNumber (Recipe.safety_score recipe))) (of_Z 75)
     && (length (Recipe.hacks recipe) <=? 3)%nat
  then 1 else 2.

(** [base64] of [handleScan]: the second piece of the data URL that the
    reader gives, cut at its commas; [None] for [undefined]. *)
Definition handleScan_base64 (result : string) : option string :=
  JsString.split "," result !! 1%nat.

(** [current.steps[currentStepIndex]] inside a template literal *)
Definition step_text (steps : list string) (i : Z) : string :=
  if i <? 0 then "undefined" else default "undefined" (steps !! Z.to_nat i).

Section ReadAloud.
Variable Number_toString : number → string.

(** [handleReadAloud]: the text given to [speak], [None] when [speak] is
    not called. *)
Definition handleReadAloud (k : Component) : option string :=
  let current :=
    match AppState.screen (state k) with
    | RECIPE_DETAIL => AppState.selectedCookbookRecipe (state k)
    | _ => AppState.currentRecipe (state k)
    end in
  let textToRead :=
    match AppState.screen (state k) with
    | LANDING =>
        "Welcome to Rescue Chef. Scan your ingredients or type what you want to eat."
    | RESULT | RECIPE_DETAIL =>
        match current with
        | Some current =>
            Recipe.name current +:+ ". " +:+ Recipe.description current +:+ "."
        | None => "No recipe found."
        end
    | COOKING =>
        match current with
        | Some current =>
            "Step " +:+ Number_toString (of_Z (currentStepIndex k + 1)) +:+ ": "
            +:+ step_text (Recipe.steps current) (currentStepIndex k)
        | None => ""
        end
    | SHOPPING => "Find missing ingredients at these nearby stores."
    | COOKBOOK => "Your saved recipes collection."
    | SUCCESS => ""
    end in
  if truthy_string (Some textToRead) then Some textToRead else None.

End ReadAloud.

(** The theme: its initial value from the store, [toggleTheme], and the
    effect that writes it back after a render ([None] when the write
    throws). *)
Module Theme.

Definition initial (localStorage : gmap string string) : string :=
  match localStorage !! "theme" with
  | Some theme => if truthy_string (Some theme) then theme else "light"
  | None => "light"
  end.

Definition toggleTheme (prev : string) : string :=
  if String.eqb prev "light" then "dark" else "light".

(** The second argument of [classList.toggle]: whether the page is dark. *)
Definition dark_mode (theme : string) : bool := String.eqb theme "dark".

Definition effect (quota : gmap string string → bool) (theme : string)
    (localStorage : gmap string string) : option (gmap string string) :=
  setItem quota "theme" theme localStorage.

End Theme.

(** ** The step timer ([components/Timer.tsx]) *)

Module Timer.

Record t : Type := mk {
  minutes : Z;
  seconds : Z;
  isActive : bool
}.

Definition initial : t := mk 0 0 false.

(** The condition under which the effect starts the interval. *)
Definition armed (s : t) : bool :=
  isActive s && ((0 <? minutes s) || (0 <? seconds s)).

(** The effect, run after the render of [s]: with the interval started
    nothing is set; at 00:00 it sets [isActive] to false. *)
Definition effect (s : t) : t :=
  if armed s then s
  else if (minutes s =? 0) && (seconds s =? 0) then mk (minutes s) (seconds s) false
  else s.

(** The callback of the interval started by the render of [s]. *)
Definition tick (s : t) : t :=
  if seconds s =? 0 then
    if 0 <? minutes s then mk (minutes s - 1) 59 (isActive s) else s
  else mk (minutes s) (seconds s - 1) (isActive s).

Definition toggle (s : t) : t := mk (minutes s) (seconds s) (negb (isActive s)).

(** [reset] (no control calls it). *)
Definition reset (s : t) : t := mk 0 0 false.

Inductive Event : Type :=
| PlusM
| MinusM
| Toggle
| Tick.

(** The +M and -M buttons are rendered while the timer is stopped; the
    interval fires while it is armed. *)
Definition enabled (s : t) (ev : Event) : bool :=
  match ev with
  | PlusM | MinusM => negb (isActive s)
  | Toggle => true
  | Tick => armed s
  end.

Definition handle (s : t) (ev : Event) : t :=
  match ev with
  | PlusM => mk (minutes s + 1) (seconds s) (isActive s)
  | MinusM => mk (Z.max 0 (minutes s - 1)) (seconds s) (isActive s)
  | Toggle => toggle s
  | Tick => tick s
  end.

(** An event, then the effect of the render it causes. *)
Definition step (s : t) (ev : Event) : t := effect (handle s ev).

Inductive reachable : t → Prop :=
| reachable_initial : reachable (effect initial)
| reachable_step s ev : reachable s → enabled s ev = true → reachable (step s ev).

(** The time left, in seconds. *)
Definition total (s : t) : Z := 60 * minutes s + seconds s.

(** [n] firings of the interval. *)
Definition ticks (n : nat) (s : t) : t := Nat.iter n (λ s, step s Tick) s.

End Timer.

(** ** The service ([services/geminiService.ts]) *)

Module GeminiService.

(** [new Int16Array(data.buffer)] on the bytes that [decode] made: read
    two by two, the low byte first, as signed 16-bit integers; [None] for
    the [RangeError] of an odd number of bytes. *)
Fixpoint Int16Array (data : list Byte.byte) : option (list Z) :=
  match data with
  | [] => Some []
  | [_] => None
  | lo :: hi :: data' =>
      let u := Z.of_N (Byte.to_N lo) + 256 * Z.of_N (Byte.to_N hi) in
      cons (if u <? 32768 then u else u - 65536) <$> Int16Array data'
  end.

(** [decodeAudioData]: one list of samples per channel. A 16-bit integer
    over 32768 is a float, so the rationals are the values stored.
    [createBuffer] cuts a frame count that is not whole down to a whole
    one, the writes past it being dropped, and raises ([None]) without a
    channel or without a frame. The sample rate only labels the buffer;
    it and the largest number of channels that the platform accepts are
    left out (the one call passes 24000 and 1). *)
Definition decodeAudioData (data : list Byte.byte) (numChannels : nat)
    : option (list (list Q)) :=
  dataInt16 ← Int16Array data;
  let frameCount := (length dataInt16 / numChannels)%nat in
  if (numChannels =? 0)%nat || (frameCount =? 0)%nat then None else
  Some ((λ channel,
           (λ i, (inject_Z (nth (i * numChannels + channel)%nat dataInt16 0%Z)
                  / inject_Z 32768)%Q)
           <$> seq 0 frameCount)
        <$> seq 0 numChannels).

(** What [scanIngredients] returns for the text of the response, [None]
    when the response has none. *)
Definition scanIngredients (text : option string) : list string :=
  match text with
  | Some text => trim <$> JsString.split "," text
  | None => []
  end.

(** The image that [generateRecipeImage] and [editRecipeImage] return for
    the inline data of the response. *)
Definition imageUrl (data : string) : string := "data:image/png;base64," +:+ data.

(** [cleanBase64] of [editRecipeImage] *)
Definition cleanBase64 (base64Image : string) : string :=
  if JsString.includes "base64," base64Image
  then default EmptyString (JsString.split "base64," base64Image !! 1%nat)
  else base64Image.

(** [isHackRecommended] of [generateRecipeAndHacks] *)
Definition isHackRecommended (hacks : list SubstitutionHack.t) : bool :=
  forallb (λ h, ge (SubstitutionHack.effectiveness_score h) (of_Z 70)
                && match SubstitutionHack.safety_risk h with
                   | RiskHigh => false
                   | _ => true
                   end) hacks.

End GeminiService.

(** ** Predicates of the further statements *)

Definition first_char (s : string) : option ascii :=
  match s with
  | String c _ => Some c
  | EmptyString => None
  end.

Fixpoint last_char (s : string) : option ascii :=
  match s with
  | String c EmptyString => Some c
  | String _ s' => last_char s'
  | EmptyString => None
  end.

(** No white space at either end. *)
Definition trimmed (s : string) : Prop :=
  (∀ c, first_char s = Some c → is_white_space c = false)
  ∧ (∀ c, last_char s = Some c → is_white_space c = false).

Fixpoint all_white_space (s : string) : bool :=
  match s with
  | String c s' => is_white_space c && all_white_space s'
  | EmptyString => true
  end.

Fixpoint count_char (c : ascii) (s : string) : nat :=
  match s with
  | String c' s' => (if Ascii.eqb c' c then 1 else 0) + count_char c s'
  | EmptyString => 0
  end.

(** The timer shows a time: minutes not negative, seconds from 0 to 59,
    and it does not run at 00:00. *)
Definition timer_invariant (s : Timer.t) : Prop :=
  0 ≤ Timer.minutes s ∧ 0 ≤ Timer.seconds s ≤ 59
  ∧ (Timer.isActive s = true → 0 < Timer.total s).

(** The range of a signed 16-bit integer. *)
Definition int16 (x : Z) : Prop := -32768 ≤ x ≤ 32767.

(** *** More sample data *)

(** A recipe of two steps, asked for and then cooked with hacks. *)
Definition twoSteps : Recipe.t := sampleRecipe "r4" ["Chop"; "Fry"] (of_Z 20).

Definition cookingTwoSteps : Component :=
  run_events [GenerateAnswered "soup" (Some twoSteps); CookWithHacks] fresh.

(** The session that saves it and opens it from the cookbook. *)
Definition detailOpened : Component :=
  run_events
    [GenerateAnswered "soup" (Some twoSteps); ResultSave HACK_IT "01/02/2026";
     ResultBack; MyCookbook; CookbookSelect 0]
    fresh.

(** * Properties *)

(** ** Score normaliser *)


Lemma Qltb_ge (a b : Q) : Qltb a b = false ↔ (b <= a)%Q.
Proof. unfold Qltb. rewrite negb_false_iff. apply Qle_bool_iff. Qed.









(** The ends of that range in binary64: the last double below 1, the
    first double above 0, the first double above 100, and 10000. *)
Example normalizeScore_binary64_edges :
  normalizeScore_binary64 (SFpred Binary64.prec Binary64.emax (Binary64.of_Z 1))
  = Binary64.of_Z 100
  ∧ normalizeScore_binary64 (SFsucc Binary64.prec Binary64.emax (Binary64.of_Z 0))
    = Binary64.of_Z 0
  ∧ normalizeScore_binary64 (SFsucc Binary64.prec Binary64.emax (Binary64.of_Z 100))
    = Binary64.of_Z 1
  ∧ normalizeScore_binary64 (Binary64.of_Z 10000) = Binary64.of_Z 100.
Proof. repeat split; vm_compute; reflexivity. Qed.




(** Outside these inputs the two differ: the code removes the first
    percent sign, wherever it is. *)
Example first_percent_not_last :
  numeric_like (PString "5%5") = false
  ∧ normalizeScore (PString "5%5") = of_Z 55
  ∧ Spec.normalize (PString "5%5") = of_Z 5.
Proof. repeat split; vm_compute; reflexivity. Qed.

(** ** Recipe safety defaulting *)

Ltac safe_lookup :=
  unfold safeRecipe;
  repeat (rewrite lookup_insert_ne by done);
  try rewrite lookup_insert_eq.

Lemma safeRecipe_list_field (recipe : gmap string JsValue) (key : string) :
  key ∈ list_fields → array_or_empty recipe (safeRecipe recipe) key.
Proof.
  unfold list_fields. rewrite !elem_of_cons, elem_of_nil.
  intros H. unfold array_or_empty.
  repeat (destruct H as [->|H]); try done; safe_lookup; unfold prop;
    (destruct (recipe !! _) as [[| |]|]; done).
Qed.

Lemma safeRecipe_scalar_field (recipe : gmap string JsValue) (key : string)
    (fallback : JsValue) :
  (key, fallback) ∈ [("safety_score", JNumber (of_Z 0)); ("difficulty", JString "Medium");
                     ("name", JString "Untitled Recipe"); ("description", JString "");
                     ("imageUrl", JNull)] →
  falls_back recipe (safeRecipe recipe) key fallback.
Proof.
  rewrite !elem_of_cons, elem_of_nil. intros H. unfold falls_back.
  repeat (destruct H as [[= -> ->]|H]); try done; safe_lookup; unfold prop, or_else;
    (destruct (recipe !! _); done).
Qed.

Lemma safeRecipe_other_field (recipe : gmap string JsValue) (key : string) :
  key ∉ list_fields ++ scalar_fields → safeRecipe recipe !! key = recipe !! key.
Proof.
  unfold list_fields, scalar_fields. cbn [app]. rewrite !not_elem_of_cons.
  intros H. destruct_and!. unfold safeRecipe.
  repeat (rewrite lookup_insert_ne by congruence). done.
Qed.

(** C7. For every recipe object, whatever its members, the defaulting
    gives an object in which hacks, ingredients, steps, tips,
    safety_factors, already_have and need_to_buy are arrays (the original
    one when it is an array, the empty one otherwise), name, description,
    safety_score and difficulty fall back to "Untitled Recipe", "", 0 and
    "Medium", the image falls back to null, and every other member is
    kept. The defaulting is a total function: it never throws. *)
Theorem safeRecipe_defaults (recipe : gmap string JsValue) :
  (∀ key, key ∈ list_fields → array_or_empty recipe (safeRecipe recipe) key)
  ∧ falls_back recipe (safeRecipe recipe) "name" (JString "Untitled Recipe")
  ∧ falls_back recipe (safeRecipe recipe) "description" (JString "")
  ∧ falls_back recipe (safeRecipe recipe) "safety_score" (JNumber (of_Z 0))
  ∧ falls_back recipe (safeRecipe recipe) "difficulty" (JString "Medium")
  ∧ falls_back recipe (safeRecipe recipe) "imageUrl" JNull
  ∧ (∀ key, key ∉ list_fields ++ scalar_fields →
     safeRecipe recipe !! key = recipe !! key).
Proof.
  split; [intros key; apply safeRecipe_list_field|].
  repeat split; try (apply safeRecipe_scalar_field; set_solver).
  intros key. apply safeRecipe_other_field.
Qed.

(** The example of the specification: hacks and safety_score are absent. *)
Lemma safeRecipe_defaults_witness :
  let recipe : gmap string JsValue := {[ "id" := JString "r1" ]} in
  safeRecipe recipe !! "hacks" = Some (JArray [])
  ∧ safeRecipe recipe !! "safety_score" = Some (JNumber (of_Z 0))
  ∧ safeRecipe recipe !! "id" = Some (JString "r1").
Proof.
  cbv zeta.
  pose proof (safeRecipe_defaults {[ "id" := JString "r1" ]})
    as (Hlist & _ & _ & Hscore & _ & _ & Hother).
  split; [|split].
  - specialize (Hlist "hacks"). unfold array_or_empty in Hlist.
    rewrite lookup_singleton_ne in Hlist by discriminate.
    apply Hlist. unfold list_fields. apply list_elem_of_here.
  - unfold falls_back in Hscore.
    rewrite lookup_singleton_ne in Hscore by discriminate. exact Hscore.
  - rewrite Hother; [apply lookup_singleton_eq|].
    unfold list_fields, scalar_fields. cbn [app]. rewrite !not_elem_of_cons.
    repeat split; try discriminate. apply not_elem_of_nil.
Defined.

(** *** The typed defaulting is the defaulting of the JSON object *)

Ltac recipe_fields :=
  cbn [Recipe.id Recipe.name Recipe.description Recipe.ingredients
       Recipe.already_have Recipe.need_to_buy Recipe.estimated_shopping_cost
       Recipe.steps Recipe.hacks Recipe.prepTime Recipe.totalTime
       Recipe.servings Recipe.difficulty Recipe.isHackRecommended
       Recipe.safety_score Recipe.safety_factors Recipe.tips
       Recipe.savings_dh Recipe.co2_saved_kg Recipe.waste_avoided_g
       Recipe.imageUrl Recipe.type Recipe.savedDate].

Lemma lookup_optional_ne (key key' : string) (v : option JsValue)
    (o : gmap string JsValue) :
  key ≠ key' → ToJson.optional key v o !! key' = o !! key'.
Proof. intros Hne. destruct v; [apply lookup_insert_ne; exact Hne|reflexivity]. Qed.

Lemma lookup_object_cons (key key' : string) (v : JsValue) (l : list (string * JsValue)) :
  ToJson.object ((key, v) :: l) !! key' =
  if decide (key = key') then Some v else ToJson.object l !! key'.
Proof. unfold ToJson.object. cbn [list_to_map foldr fst snd]. apply lookup_insert. Qed.

Lemma recipe_json_members (r : Recipe.t) (key : string) :
  key ∈ list_fields ++ scalar_fields →
  ToJson.recipe r !! key = ToJson.object (ToJson.members r) !! key.
Proof.
  unfold list_fields, scalar_fields. cbn [app].
  rewrite !elem_of_cons, elem_of_nil. intros H. unfold ToJson.recipe.
  rewrite !lookup_optional_ne; [reflexivity| |];
    intros <-; repeat (destruct H as [H|H]; [discriminate H|]); exact H.
Qed.

Lemma recipe_json_lookup (r : Recipe.t) (key : string) :
  key ∉ list_fields ++ scalar_fields →
  ToJson.recipe (safeRecipe_typed r) !! key = ToJson.recipe r !! key.
Proof.
  unfold list_fields, scalar_fields. cbn [app]. rewrite !not_elem_of_cons.
  intros H. destruct_and!.
  unfold ToJson.recipe, ToJson.optional, ToJson.members, safeRecipe_typed. recipe_fields.
  destruct (Recipe.savedDate r), (Recipe.type r); cbn [fmap option_fmap option_map];
    rewrite ?lookup_insert, !lookup_object_cons;
    repeat (case_decide; [subst key; first [reflexivity | congruence]|]);
    reflexivity.
Qed.

Ltac object_lookup :=
  unfold ToJson.members;
  repeat (rewrite lookup_object_cons;
          first [rewrite decide_True by reflexivity
                |rewrite decide_False by discriminate]).

Lemma safeRecipe_typed_json (r : Recipe.t) :
  safeRecipe (ToJson.recipe r) = ToJson.recipe (safeRecipe_typed r).
Proof.
  apply map_eq; intros key.
  destruct (decide (key ∈ list_fields ++ scalar_fields)) as [Hin|Hout].
  2:{ rewrite safeRecipe_other_field, recipe_json_lookup by exact Hout. reflexivity. }
  rewrite (recipe_json_members (safeRecipe_typed r) key Hin).
  unfold list_fields, scalar_fields in Hin. cbn [app] in Hin.
  rewrite !elem_of_cons, elem_of_nil in Hin.
  repeat (destruct Hin as [->|Hin]); [..|destruct Hin].
  all: safe_lookup; unfold prop.
  all: rewrite !recipe_json_members
         by (unfold list_fields, scalar_fields; cbn [app]; rewrite !elem_of_cons; tauto).
  all: object_lookup.
  all: unfold safeRecipe_typed; recipe_fields; cbn [default isArray or_else].
  all: try reflexivity.
  all: unfold or_else, id, truthy_string; cbn [truthy truthy_primitive].
  - destruct (truthy_number (Recipe.safety_score r)); reflexivity.
  - destruct (Recipe.difficulty r); reflexivity.
  - destruct (String.eqb (Recipe.name r) ""); reflexivity.
  - destruct (String.eqb (Recipe.description r) ""); reflexivity.
  - destruct (Recipe.imageUrl r) as [url|]; [|reflexivity].
    cbn [truthy truthy_primitive]. destruct (String.eqb url ""); reflexivity.
Qed.

(** ** Handlers on a state without recipe, pantry editing *)

Ltac break_state k :=
  destruct k as [[scr city cur sel pantry saved book mode] idx t].

Ltac unfold_handlers :=
  unfold handleScan, removeIngredient, addIngredient, generateDecision,
    generateDecision_illustration, handleMagicEdit, saveRecipe, finishCooking,
    showToast, showToast_timeout, goTo, detailRecipe in *.

Lemma component_eta (k : Component) :
  mkComponent (state k) (currentStepIndex k) (toast k) = k.
Proof. destruct k; reflexivity. Qed.

Lemma with_scannedIngredients_same (s : AppState.t) :
  AppState.with_scannedIngredients (AppState.scannedIngredients s) s = s.
Proof. destruct s; reflexivity. Qed.

(** C9. Without a current recipe, [saveRecipe] and [finishCooking] leave
    the state as it is: no cookbook entry, no increment of the counter, no
    change of screen (and no notice). *)
Theorem no_recipe_no_effect (k : Component) (type : SaveType) (today : string) :
  AppState.currentRecipe (state k) = None →
  dispatch (saveRecipe type today) k = k ∧ dispatch finishCooking k = k.
Proof.
  intros Hnone. unfold dispatch, saveRecipe, finishCooking.
  rewrite Hnone. split; reflexivity.
Qed.

Lemma no_recipe_no_effect_witness :
  dispatch (saveRecipe HACK_IT "01/02/2026") fresh = fresh
  ∧ dispatch finishCooking fresh = fresh.
Proof. apply (no_recipe_no_effect fresh HACK_IT "01/02/2026"). reflexivity. Defined.

Lemma eqb_of_Z (a b : Z) : eqb (of_Z a) (of_Z b) = (a =? b).
Proof.
  unfold eqb, of_Z. destruct (Z.eqb_spec a b) as [->|Hne].
  - apply Qeq_bool_iff. reflexivity.
  - destruct (Qeq_bool (inject_Z a) (inject_Z b)) eqn:E; [|reflexivity].
    apply Qeq_bool_iff in E. unfold Qeq in E. cbn in E. lia.
Qed.

Lemma filter_index_keep_all {A : Type} (keep : Z → bool) (start : Z) (l : list A) :
  (∀ j, start ≤ j < start + Z.of_nat (length l) → keep j = true) →
  filter_index keep start l = l.
Proof.
  revert start. induction l as [|x l IH]; intros start Hkeep; [reflexivity|].
  cbn [filter_index]. cbn [length] in Hkeep. rewrite Hkeep by lia.
  f_equal. apply IH. intros j Hj. apply Hkeep. lia.
Qed.

Lemma filter_index_remove {A : Type} (i start : Z) (l : list A) :
  start ≤ i < start + Z.of_nat (length l) →
  filter_index (λ j, negb (eqb (of_Z j) (of_Z i))) start l
  = take (Z.to_nat (i - start)) l ++ drop (S (Z.to_nat (i - start))) l.
Proof.
  revert start. induction l as [|x l IH]; intros start Hi; cbn [length] in Hi; [lia|].
  cbn [filter_index]. rewrite eqb_of_Z.
  destruct (Z.eqb_spec start i) as [->|Hne].
  - cbn [negb]. rewrite Z.sub_diag. cbn [Z.to_nat take drop app].
    apply filter_index_keep_all. intros j Hj. rewrite eqb_of_Z.
    destruct (Z.eqb_spec j i); [lia|reflexivity].
  - cbn [negb]. replace (Z.to_nat (i - start)) with (S (Z.to_nat (i - (start + 1)))) by lia.
    cbn [take drop app]. f_equal. apply IH. lia.
Qed.

(** C10. For every pantry and every index [i], [removeIngredient(i)]
    changes nothing when [i] is outside the list, removes the element at
    position [i] and keeps the others in order when it is inside, touches
    no other part of the state, and is defined for every [i]. *)
Theorem removeIngredient_by_position (k : Component) (i : Z) :
  let pantry := AppState.scannedIngredients (state k) in
  let k' := run (removeIngredient (of_Z i)) k in
  (i < 0 ∨ Z.of_nat (length pantry) ≤ i → k' = k)
  ∧ (0 ≤ i < Z.of_nat (length pantry) →
     AppState.scannedIngredients (state k')
     = take (Z.to_nat i) pantry ++ drop (S (Z.to_nat i)) pantry)
  ∧ AppState.with_scannedIngredients pantry (state k') = state k
  ∧ currentStepIndex k' = currentStepIndex k
  ∧ toast k' = toast k.
Proof.
  cbv zeta. unfold removeIngredient. cbn [run fold_left run_cmd state currentStepIndex toast].
  repeat split.
  - intros Hout. rewrite filter_index_keep_all.
    + rewrite with_scannedIngredients_same. apply component_eta.
    + intros j Hj. rewrite eqb_of_Z. destruct (Z.eqb_spec j i); [lia|reflexivity].
  - intros Hin. cbn [AppState.with_scannedIngredients AppState.scannedIngredients].
    rewrite filter_index_remove by lia. rewrite Z.sub_0_r. reflexivity.
  - destruct (state k); reflexivity.
Qed.

Lemma removeIngredient_by_position_witness :
  let k := mkComponent (sampleState LANDING None [] None (of_Z 0)) 0 None in
  AppState.scannedIngredients (state (run (removeIngredient (of_Z 0)) k)) = ["tomato"]
  ∧ run (removeIngredient (of_Z 2)) k = k.
Proof.
  cbv zeta. split.
  - apply (proj1 (proj2 (removeIngredient_by_position
             (mkComponent (sampleState LANDING None [] None (of_Z 0)) 0 None) 0))).
    cbn. lia.
  - apply (proj1 (removeIngredient_by_position
             (mkComponent (sampleState LANDING None [] None (of_Z 0)) 0 None) 2)).
    cbn. lia.
Defined.

(** ** Background illustration *)

(** C4. The illustration requested for [recipe] changes the state only
    when the current recipe exists and has the id of [recipe]; it then
    changes the image of the current recipe and nothing else, in the
    recipe or in the state; when the ids differ, as after a second
    generation, the state is left as it is. *)
Theorem illustration_only_for_its_recipe
    (k : Component) (recipe : Recipe.t) (illustration : option string) :
  let k' := run (generateDecision_illustration recipe illustration) k in
  (state k' ≠ state k →
   ∃ current, AppState.currentRecipe (state k) = Some current
              ∧ Recipe.id current = Recipe.id recipe)
  ∧ (∀ current, AppState.currentRecipe (state k) = Some current →
     Recipe.id current = Recipe.id recipe →
     truthy_string illustration = true →
     ∃ current', AppState.currentRecipe (state k') = Some current'
       ∧ Recipe.imageUrl current' = illustration
       ∧ Recipe.with_imageUrl None current' = Recipe.with_imageUrl None current
       ∧ AppState.with_currentRecipe None (state k')
         = AppState.with_currentRecipe None (state k))
  ∧ ((∀ current, AppState.currentRecipe (state k) = Some current →
      Recipe.id current ≠ Recipe.id recipe) → k' = k)
  ∧ (∀ (other : Recipe.t) (inputQuery : string),
       inputQuery ≠ EmptyString → Recipe.id other ≠ Recipe.id recipe →
       let later := step k (GenerateAnswered inputQuery (Some other)) in
       step later (IllustrationAnswered recipe illustration) = later)
  ∧ currentStepIndex k' = currentStepIndex k
  ∧ toast k' = toast k.
Proof.
  cbv zeta. unfold step, handle, generateDecision, generateDecision_illustration.
  destruct (truthy_string illustration) eqn:Hill;
    cbn [run fold_left run_cmd state currentStepIndex toast].
  - destruct (AppState.currentRecipe (state k)) as [current|] eqn:Hcur.
    + destruct (String.eqb_spec (Recipe.id current) (Recipe.id recipe)) as [Hid|Hid].
      * repeat split.
        -- intros _. exists current. split; [reflexivity|exact Hid].
        -- intros c [= <-] _ _. eexists. split; [reflexivity|].
           repeat split; reflexivity.
        -- intros Hne. destruct (Hne current eq_refl Hid).
        -- intros other q Hq Hother. cbn [truthy_string].
           destruct (String.eqb_spec q EmptyString) as [->|_]; [done|].
           cbn. destruct (String.eqb_spec (Recipe.id other) (Recipe.id recipe)); done.
      * repeat split; try (intros; apply component_eta).
        -- intros Hne. destruct Hne. reflexivity.
        -- intros c [= <-] Heq. destruct (Hid Heq).
        -- intros other q Hq Hother. cbn [truthy_string].
           destruct (String.eqb_spec q EmptyString) as [->|_]; [done|].
           cbn. destruct (String.eqb_spec (Recipe.id other) (Recipe.id recipe)); done.
    + repeat split; try (intros; apply component_eta).
      * intros Hne. destruct Hne. reflexivity.
      * intros c [=].
      * intros other q Hq Hother. cbn [truthy_string].
        destruct (String.eqb_spec q EmptyString) as [->|_]; [done|].
        cbn. destruct (String.eqb_spec (Recipe.id other) (Recipe.id recipe)); done.
  - repeat split; done.
Qed.

Lemma illustration_only_for_its_recipe_witness :
  let a := sampleRecipe "a1" ["Chop"] (of_Z 20) in
  let b := sampleRecipe "b2" ["Boil"] (of_Z 30) in
  let k := run_events [GenerateAnswered "soup" (Some a); GenerateAnswered "stew" (Some b)]
             fresh in
  run (generateDecision_illustration a (Some "data:image/png;base64,AAAA")) k = k
  ∧ ∃ current',
      AppState.currentRecipe
        (state (run (generateDecision_illustration b (Some "data:image/png;base64,AAAA")) k))
      = Some current'
      ∧ Recipe.imageUrl current' = Some "data:image/png;base64,AAAA".
Proof.
  cbv zeta. split.
  - apply (proj1 (proj2 (proj2 (illustration_only_for_its_recipe _ _ _)))).
    intros current [= <-]. cbn. discriminate.
  - destruct (proj1 (proj2 (illustration_only_for_its_recipe
      (run_events [GenerateAnswered "soup" (Some (sampleRecipe "a1" ["Chop"] (of_Z 20)));
                   GenerateAnswered "stew" (Some (sampleRecipe "b2" ["Boil"] (of_Z 30)))]
             fresh)
      (sampleRecipe "b2" ["Boil"] (of_Z 30)) (Some "data:image/png;base64,AAAA")))
      (Recipe.with_imageUrl (Some "") (sampleRecipe "b2" ["Boil"] (of_Z 30)))
      eq_refl eq_refl eq_refl) as (current' & H1 & H2 & _).
    exists current'. split; [exact H1|exact H2].
Defined.

(** ** Cookbook save *)

Local Arguments isRecipeSaved : simpl never.

Lemma existsb_id (rid : string) (book : list Recipe.t) :
  existsb (λ r, String.eqb (Recipe.id r) rid) book = true ↔ rid ∈ Recipe.id <$> book.
Proof.
  rewrite existsb_exists, list_elem_of_fmap. split.
  - intros (r & Hin & Heq). apply String.eqb_eq in Heq. exists r.
    split; [done|]. apply list_elem_of_In, Hin.
  - intros (r & -> & Hin). exists r.
    split; [apply list_elem_of_In, Hin|apply String.eqb_refl].
Qed.

(** [isRecipeSaved] answers yes exactly for an id that is not empty and
    occurs in the cookbook. *)
Lemma isRecipeSaved_spec (s : AppState.t) (rid : string) :
  isRecipeSaved s (Some rid) = true ↔ rid ≠ "" ∧ rid ∈ Recipe.id <$> AppState.cookbook s.
Proof.
  unfold isRecipeSaved, truthy_string.
  destruct (String.eqb_spec rid "") as [->|Hne]; cbn [negb].
  - split; [discriminate|]. intros [H _]. destruct H. reflexivity.
  - rewrite existsb_id. tauto.
Qed.

Lemma saveRecipe_saved (k : Component) (type : SaveType) (today : string)
    (current : Recipe.t) :
  AppState.currentRecipe (state k) = Some current →
  isRecipeSaved (state k) (Some (Recipe.id current)) = true →
  dispatch (saveRecipe type today) k
  = mkComponent (state k) (currentStepIndex k) (Some "Already Saved").
Proof.
  intros Hcur Hsaved. unfold dispatch, saveRecipe. rewrite Hcur, Hsaved. reflexivity.
Qed.

Lemma saveRecipe_new (k : Component) (type : SaveType) (today : string)
    (current : Recipe.t) :
  AppState.currentRecipe (state k) = Some current →
  isRecipeSaved (state k) (Some (Recipe.id current)) = false →
  dispatch (saveRecipe type today) k
  = mkComponent
      (AppState.with_cookbook
         (Recipe.with_type_savedDate type today current :: AppState.cookbook (state k))
         (state k))
      (currentStepIndex k) (Some "✅ Recipe saved to Cookbook!").
Proof.
  intros Hcur Hsaved. unfold dispatch, saveRecipe. rewrite Hcur, Hsaved. reflexivity.
Qed.

(** The image edit replaces entries by an entry of the same id. *)
Lemma ids_replace (updated : Recipe.t) (book : list Recipe.t) :
  Recipe.id <$> ((λ r, if String.eqb (Recipe.id r) (Recipe.id updated)
                       then updated else r) <$> book)
  = Recipe.id <$> book.
Proof.
  induction book as [|r book IH]; [reflexivity|]. cbn [fmap list_fmap] in *.
  f_equal; [|exact IH].
  destruct (String.eqb_spec (Recipe.id r) (Recipe.id updated)); congruence.
Qed.

Lemma ids_strip (v : option string) (book : list Recipe.t) :
  Recipe.id <$> (Recipe.with_imageUrl v <$> book) = Recipe.id <$> book.
Proof. rewrite <- list_fmap_compose. reflexivity. Qed.

(** An event keeps the ids of the cookbook, or puts in front a recipe
    that [isRecipeSaved] did not find. *)
Lemma cookbook_step (k : Component) (ev : Event) :
  Recipe.id <$> AppState.cookbook (state (step k ev))
  = Recipe.id <$> AppState.cookbook (state k)
  ∨ ∃ r, AppState.cookbook (state (step k ev)) = r :: AppState.cookbook (state k)
         ∧ isRecipeSaved (state k) (Some (Recipe.id r)) = false.
Proof.
  break_state k. unfold step, handle.
  cbn [state currentStepIndex toast AppState.currentRecipe AppState.cookbook].
  destruct ev; unfold_handlers; cbn; repeat (case_match; cbn in * ); simplify_eq/=;
    try (left; reflexivity);
    try (right; eexists; split; [reflexivity|]; assumption).
  all: left; match goal with
             | |- context [Recipe.with_imageUrl ?v ?r] =>
                 exact (ids_replace (Recipe.with_imageUrl v r) _)
             end.
Qed.

Lemma distinct_ids_step (k : Component) (ev : Event) :
  distinct_ids (AppState.cookbook (state k)) →
  distinct_ids (AppState.cookbook (state (step k ev))).
Proof.
  unfold distinct_ids. intros Hbook.
  destruct (cookbook_step k ev) as [-> | (r & -> & Hnew)]; [exact Hbook|].
  cbn [fmap list_fmap]. rewrite filter_cons. case_decide as Hid; [|exact Hbook].
  apply NoDup_cons. split; [|exact Hbook].
  rewrite list_elem_of_filter. intros [_ Hin].
  assert (isRecipeSaved (state k) (Some (Recipe.id r)) = true) as Hsaved
    by (apply isRecipeSaved_spec; split; assumption).
  congruence.
Qed.

Lemma reachable_distinct_ids (k : Component) :
  reachable k → distinct_ids (AppState.cookbook (state k)).
Proof.
  induction 1 as [|k ev _ IH _|k w _ IH].
  - apply NoDup_nil_2.
  - apply distinct_ids_step, IH.
  - unfold distinct_ids in *. cbn. rewrite ids_strip. exact IH.
Qed.

(** C3 (amended). When the id of the current recipe is not empty and
    occurs in the cookbook, [saveRecipe] leaves the state as it is and
    shows the notice "Already Saved"; saving a recipe with such an id a
    second time leaves the length of the cookbook as the first save left
    it; and in every state the application goes through, no two entries
    of the cookbook share an id that is not empty. *)
Theorem save_is_idempotent_by_id :
  (∀ (k : Component) (type : SaveType) (today : string) (current : Recipe.t),
     AppState.currentRecipe (state k) = Some current →
     Recipe.id current ≠ EmptyString →
     Recipe.id current ∈ Recipe.id <$> AppState.cookbook (state k) →
     dispatch (saveRecipe type today) k
     = mkComponent (state k) (currentStepIndex k) (Some "Already Saved"))
  ∧ (∀ (k : Component) (type type' : SaveType) (today today' : string) (current : Recipe.t),
       AppState.currentRecipe (state k) = Some current →
       Recipe.id current ≠ EmptyString →
       let once := dispatch (saveRecipe type today) k in
       let twice := dispatch (saveRecipe type' today') once in
       length (AppState.cookbook (state twice)) = length (AppState.cookbook (state once)))
  ∧ (∀ k : Component, reachable k → distinct_ids (AppState.cookbook (state k))).
Proof.
  split; [|split; [|exact reachable_distinct_ids]].
  - intros k type today current Hcur Hid Hin.
    apply saveRecipe_saved with current; [exact Hcur|].
    apply isRecipeSaved_spec. split; assumption.
  - intros k type type' today today' current Hcur Hid once twice.
    assert (Hsaved : isRecipeSaved (state once) (Some (Recipe.id current)) = true
                     ∧ AppState.currentRecipe (state once) = Some current).
    { subst once.
      destruct (isRecipeSaved (state k) (Some (Recipe.id current))) eqn:Hfirst.
      - rewrite (saveRecipe_saved k type today current Hcur Hfirst). cbn [state].
        split; assumption.
      - rewrite (saveRecipe_new k type today current Hcur Hfirst). cbn [state].
        split; [|destruct (state k); exact Hcur].
        apply isRecipeSaved_spec. split; [exact Hid|].
        destruct (state k); cbn. apply list_elem_of_here. }
    destruct Hsaved as [Hsaved Hcur'].
    subst twice. rewrite (saveRecipe_saved once type' today' current Hcur' Hsaved).
    reflexivity.
Qed.

Lemma save_is_idempotent_by_id_witness :
  let k := step fresh (GenerateAnswered "soup" (Some noSteps)) in
  let once := dispatch (saveRecipe HACK_IT "01/02/2026") k in
  let twice := dispatch (saveRecipe SHOP_IT "02/02/2026") once in
  twice = mkComponent (state once) (currentStepIndex once) (Some "Already Saved")
  ∧ length (AppState.cookbook (state twice)) = length (AppState.cookbook (state once))
  ∧ distinct_ids (AppState.cookbook (state once)).
Proof.
  cbv zeta. split; [|split].
  - apply (proj1 save_is_idempotent_by_id
             (dispatch (saveRecipe HACK_IT "01/02/2026")
                (step fresh (GenerateAnswered "soup" (Some noSteps))))
             SHOP_IT "02/02/2026" (Recipe.with_imageUrl (Some "") noSteps)).
    + reflexivity.
    + discriminate.
    + cbn. apply list_elem_of_here.
  - apply (proj1 (proj2 save_is_idempotent_by_id)
             (step fresh (GenerateAnswered "soup" (Some noSteps)))
             HACK_IT SHOP_IT "01/02/2026" "02/02/2026"
             (Recipe.with_imageUrl (Some "") noSteps)).
    + reflexivity.
    + discriminate.
  - apply (proj2 (proj2 save_is_idempotent_by_id)
             (step (step fresh (GenerateAnswered "soup" (Some noSteps)))
                (ResultSave HACK_IT "01/02/2026"))).
    apply reachable_step; [apply reachable_step; [apply reachable_fresh|]|]; reflexivity.
Defined.

(** C3 as stated fails on the empty id, which [isRecipeSaved] never
    finds: the recipe is in the cookbook, the second save is offered, adds
    a second entry, and the cookbook of a reachable state has the id
    twice. *)
Lemma empty_id_saved_twice :
  let twice := step savedOnce (ResultSave SHOP_IT "02/02/2026") in
  (∃ current, AppState.currentRecipe (state savedOnce) = Some current
              ∧ Recipe.id current ∈ Recipe.id <$> AppState.cookbook (state savedOnce))
  ∧ enabled savedOnce (ResultSave SHOP_IT "02/02/2026") = true
  ∧ length (AppState.cookbook (state savedOnce)) = 1%nat
  ∧ length (AppState.cookbook (state twice)) = 2%nat
  ∧ Recipe.id <$> AppState.cookbook (state twice) = [EmptyString; EmptyString]
  ∧ reachable twice.
Proof.
  cbv zeta. split; [|repeat split].
  - eexists. split; [reflexivity|]. cbn. apply list_elem_of_here.
  - unfold savedOnce. cbn [run_events fold_left].
    repeat (apply reachable_step; [|reflexivity]). apply reachable_fresh.
Qed.

(** ** Cooking session and savings *)













(** ** Screens and the step index *)

Lemma screen_invariant_fresh : screen_invariant fresh.
Proof. repeat split; cbn; discriminate. Qed.

Lemma screen_invariant_reload (k : Component) (w : number) :
  screen_invariant k →
  screen_invariant (mkComponent (AppState.with_wasteSaved w (stateToSave (state k))) 0 None).
Proof.
  intros (Hdetail & Hcur & Hidx). break_state k.
  cbn in *. split; [|split].
  - intros H. apply fmap_is_Some. auto.
  - intros H. apply fmap_is_Some. auto.
  - intros Hscr recipe Hrec Hsteps. destruct cur as [r|]; [|discriminate Hrec].
    cbn in Hrec. injection Hrec as <-. cbn in Hsteps |- *.
    destruct (Recipe.steps r); [done|]. cbn [length]. lia.
Qed.

Lemma screen_invariant_step (k : Component) (ev : Event) :
  screen_invariant k → enabled k ev = true → screen_invariant (step k ev).
Proof.
  intros (Hdetail & Hcur & Hidx) Hen. break_state k.
  unfold screen_invariant, step, handle, enabled, screen_is in *.
  cbn [state currentStepIndex toast AppState.screen AppState.currentRecipe
       AppState.selectedCookbookRecipe] in *.
  destruct ev; destruct scr; try discriminate Hen; cbn in Hen |- *.
  all: unfold_handlers; unfold isRecipeSaved in *.
  all: cbn in *; repeat (case_match; cbn in * ).
  all: (split; [|split]); intros; simplify_eq/=; try done; eauto.
  all: try (rewrite ?andb_true_iff, ?bool_decide_eq_true in *; destruct_and?;
            try done; eauto).
  all: try lia.
  all: try (destruct (Recipe.steps _) eqn:Hsteps; [done|]; cbn [length] in *; lia).
  all: match goal with
       | Hidx : _ → ∀ r, Some ?r0 = Some r → _, Hs : Recipe.steps ?r0 ≠ [] |- _ =>
           specialize (Hidx eq_refl r0 eq_refl Hs)
       end.
  all: rewrite ?negb_true_iff, ?Z.eqb_neq in *; lia.
Qed.

(** The part of the screen invariant that holds: in every state the
    application goes through, the detail screen has a recipe, the cooking
    screen has the current recipe, and the step index is within the steps
    whenever there is at least one step. *)
Lemma reachable_screen_invariant (k : Component) :
  reachable k → screen_invariant k.
Proof.
  induction 1 as [|k ev _ IH Hen|k w _ IH].
  - apply screen_invariant_fresh.
  - apply screen_invariant_step; assumption.
  - apply screen_invariant_reload; assumption.
Qed.

Lemma reachable_has_recipe (k : Component) :
  reachable k → detail_has_recipe k ∧ cooking_has_recipe k.
Proof.
  intros (Hdetail & Hcur & _)%reachable_screen_invariant. split.
  - intros Hscr. right. apply Hdetail, Hscr.
  - intros Hscr. apply Hcur. rewrite Hscr. reflexivity.
Qed.

(** C5, at the input where the code departs from it: the service answers
    with a recipe that has no step and the user chooses to cook with
    hacks. The state is reachable, its screen is COOKING, its recipe is
    there, and the index 0 is not within the empty list of steps; from
    there "Next" stays offered and counts up without end, the finish
    action never being offered. *)
Theorem cooking_without_steps :
  reachable cookingNoSteps
  ∧ AppState.screen (state cookingNoSteps) = COOKING
  ∧ AppState.currentRecipe (state cookingNoSteps)
    = Some (Recipe.with_imageUrl (Some EmptyString) noSteps)
  ∧ currentStepIndex cookingNoSteps = 0
  ∧ ¬ cooking_step_in_range cookingNoSteps
  ∧ ∀ n : nat,
      let k := run_events (replicate n CookingNext) cookingNoSteps in
      AppState.screen (state k) = COOKING ∧ currentStepIndex k = Z.of_nat n
      ∧ enabled k CookingNext = true.
Proof.
  split; [|split; [reflexivity|split; [reflexivity|split; [reflexivity|split]]]].
  - unfold cookingNoSteps. cbn [run_events fold_left].
    apply reachable_step; [apply reachable_step; [apply reachable_fresh|]|]; reflexivity.
  - intros Hrange. specialize (Hrange eq_refl _ eq_refl). cbn in Hrange. lia.
  - intros n. cbv zeta.
    assert (H : run_events (replicate n CookingNext) cookingNoSteps
                = mkComponent (state cookingNoSteps) (Z.of_nat n) None).
    { induction n as [|n IH]; [reflexivity|].
      replace (S n) with (n + 1)%nat by lia. rewrite replicate_add.
      unfold run_events in *. rewrite fold_left_app, IH. cbn [replicate fold_left].
      unfold step, handle. cbn [state currentStepIndex].
      change (AppState.currentRecipe (state cookingNoSteps))
        with (Some (Recipe.with_imageUrl (Some EmptyString) noSteps)).
      cbn -[Z.of_nat].
      replace (Z.of_nat n =? Z.of_nat 0 - 1) with false by (symmetry; apply Z.eqb_neq; lia).
      cbn -[Z.of_nat]. f_equal. lia. }
    rewrite H. repeat split.
Qed.

(** ** Persistence *)

Lemma stateToSave_stripped (s : AppState.t) : images_stripped (stateToSave s).
Proof.
  destruct s as [scr city cur sel pantry saved book mode].
  unfold images_stripped, stateToSave. cbn. repeat split.
  - intros r Hr. destruct cur; [|discriminate]. injection Hr as <-. reflexivity.
  - intros r Hr. destruct sel; [|discriminate]. injection Hr as <-. reflexivity.
  - apply Forall_fmap. apply Forall_forall. intros r _. reflexivity.
Qed.





(** * Further properties *)

(** ** The pantry *)

(** The loop of [Set_from] from a set [seen]: it keeps [seen] in front,
    adds the new names once each, and has no duplicate when [seen] had
    none. *)
Lemma Set_from_go (l seen : list string) :
  let result :=
    fold_left (λ seen x, if bool_decide (x ∈ seen) then seen else seen ++ [x]) l seen in
  (NoDup seen → NoDup result)
  ∧ (∀ x, x ∈ result ↔ x ∈ seen ∨ x ∈ l)
  ∧ seen `prefix_of` result.
Proof.
  revert seen. induction l as [|y l IH]; intros seen; cbn [fold_left].
  - split; [done|]. split; [|done]. intros x. rewrite elem_of_nil. tauto.
  - case_bool_decide as Hy.
    + destruct (IH seen) as (Hnd & Hin & Hpre). split; [done|]. split; [|done].
      intros x. rewrite Hin, elem_of_cons. split; [tauto|].
      intros [?|[->|?]]; tauto.
    + destruct (IH (seen ++ [y])) as (Hnd & Hin & Hpre). split; [|split].
      * intros Hseen. apply Hnd. apply NoDup_app. split; [done|].
        split; [|apply NoDup_singleton]. intros x Hx ->%list_elem_of_singleton. done.
      * intros x. rewrite Hin, elem_of_app, list_elem_of_singleton, elem_of_cons. tauto.
      * etrans; [|exact Hpre]. by apply prefix_app_r.
Qed.

Lemma Set_from_NoDup_app (l seen : list string) :
  NoDup (seen ++ l) →
  fold_left (λ seen x, if bool_decide (x ∈ seen) then seen else seen ++ [x]) l seen
  = seen ++ l.
Proof.
  revert seen. induction l as [|y l IH]; intros seen Hnd; cbn [fold_left].
  - by rewrite app_nil_r.
  - rewrite bool_decide_eq_false_2.
    + rewrite IH; rewrite <- ?app_assoc; done.
    + apply NoDup_app in Hnd as (_ & Hdisj & _). intros Hy.
      apply (Hdisj y Hy). left.
Qed.

Lemma Set_from_app (l1 l2 : list string) :
  Set_from (l1 ++ l2)
  = fold_left (λ seen x, if bool_decide (x ∈ seen) then seen else seen ++ [x]) l2
      (Set_from l1).
Proof. unfold Set_from. apply fold_left_app. Qed.

(** X1. After a scan has answered, the pantry has no duplicate and holds
    exactly the names it had and the names of the answer; a pantry that
    had no duplicate stays in front, in its order, and when the answer
    brings no duplicate either the new names follow in their order. The
    rest of the state and the step index are untouched, and the notice
    is "Pantry Scanned". *)
Theorem handleScan_merges_without_duplicates (k : Component) (ingredients : list string) :
  let pantry := AppState.scannedIngredients (state k) in
  let k' := run (handleScan ingredients) k in
  let pantry' := AppState.scannedIngredients (state k') in
  NoDup pantry'
  ∧ (∀ x, x ∈ pantry' ↔ x ∈ pantry ∨ x ∈ ingredients)
  ∧ (NoDup pantry → pantry `prefix_of` pantry')
  ∧ (NoDup (pantry ++ ingredients) → pantry' = pantry ++ ingredients)
  ∧ AppState.with_scannedIngredients pantry (state k') = state k
  ∧ currentStepIndex k' = currentStepIndex k
  ∧ toast k' = Some "📸 Pantry Scanned".
Proof.
  cbv zeta. unfold handleScan, showToast.
  cbn [run fold_left run_cmd state currentStepIndex toast].
  destruct (state k) as [scr city cur sel pantry saved book mode].
  cbn [AppState.with_scannedIngredients AppState.scannedIngredients].
  destruct (Set_from_go (pantry ++ ingredients) []) as (Hnd & Hin & _).
  fold (Set_from (pantry ++ ingredients)) in Hnd, Hin.
  split; [apply Hnd, NoDup_nil_2|]. split; [|split; [|split; [|done]]].
  - intros x. rewrite Hin, elem_of_app, elem_of_nil. tauto.
  - intros Hpantry. rewrite Set_from_app.
    replace (Set_from pantry) with pantry.
    + apply Set_from_go.
    + symmetry. apply (Set_from_NoDup_app pantry []). exact Hpantry.
  - intros Hall. apply (Set_from_NoDup_app (pantry ++ ingredients) []). exact Hall.
Qed.

Lemma handleScan_merges_without_duplicates_witness :
  let k := mkComponent (sampleState LANDING None [] None (of_Z 0)) 0 None in
  ["eggs"; "tomato"]
    `prefix_of` AppState.scannedIngredients (state (run (handleScan ["tomato"; "milk"]) k)).
Proof.
  cbv zeta.
  apply (proj1 (proj2 (proj2 (handleScan_merges_without_duplicates
    (mkComponent (sampleState LANDING None [] None (of_Z 0)) 0 None) ["tomato"; "milk"])))).
  cbn. apply NoDup_cons. split; [|apply NoDup_singleton].
  intros Hin%list_elem_of_singleton. discriminate Hin.
Defined.

(** *** Trimming *)

Lemma last_char_is_Some (a : ascii) (s : string) : is_Some (last_char (String a s)).
Proof. revert a. induction s as [|b s IH]; intros a; [by eexists|]. apply (IH b). Qed.

Lemma last_char_cons (a : ascii) (s : string) :
  last_char (String a s) = Some (default a (last_char s)).
Proof.
  destruct s as [|b s]; [reflexivity|].
  destruct (last_char_is_Some b s) as [c Hc].
  change (last_char (String a (String b s))) with (last_char (String b s)).
  rewrite Hc. reflexivity.
Qed.

Lemma first_char_rev_app (s1 s2 : string) :
  first_char (String.rev_app s1 s2)
  = match last_char s1 with Some c => Some c | None => first_char s2 end.
Proof.
  revert s2. induction s1 as [|a s1 IH]; intros s2; [reflexivity|].
  cbn [String.rev_app]. rewrite IH, last_char_cons. cbn [first_char].
  destruct (last_char s1); reflexivity.
Qed.

Lemma last_char_rev_app (s1 s2 : string) :
  last_char (String.rev_app s1 s2)
  = match last_char s2 with Some c => Some c | None => first_char s1 end.
Proof.
  revert s2. induction s1 as [|a s1 IH]; intros s2.
  - cbn. destruct (last_char s2); reflexivity.
  - cbn [String.rev_app]. rewrite IH, last_char_cons. cbn [first_char].
    destruct (last_char s2); reflexivity.
Qed.

Lemma first_char_rev (s : string) : first_char (String.rev s) = last_char s.
Proof.
  unfold String.rev. rewrite first_char_rev_app. destruct (last_char s); reflexivity.
Qed.

Lemma last_char_rev (s : string) : last_char (String.rev s) = first_char s.
Proof. unfold String.rev. rewrite last_char_rev_app. reflexivity. Qed.

Lemma first_char_skip (s : string) (c : ascii) :
  first_char (skip_white_space s) = Some c → is_white_space c = false.
Proof.
  induction s as [|a s IH]; [discriminate|]. cbn [skip_white_space].
  destruct (is_white_space a) eqn:Ha; [exact IH|]. intros [= <-]. exact Ha.
Qed.

Lemma last_char_skip (s : string) (c : ascii) :
  last_char (skip_white_space s) = Some c → last_char s = Some c.
Proof.
  induction s as [|a s IH]; [discriminate|]. cbn [skip_white_space].
  destruct (is_white_space a); [|done]. intros Hc.
  rewrite last_char_cons, (IH Hc). reflexivity.
Qed.

(** [trim] leaves no white space at either end. *)
Lemma trim_trimmed (s : string) : trimmed (trim s).
Proof.
  unfold trimmed, trim. split; intros c.
  - rewrite first_char_rev. intros Hc%last_char_skip.
    rewrite last_char_rev in Hc. exact (first_char_skip _ _ Hc).
  - rewrite last_char_rev. apply first_char_skip.
Qed.

Lemma all_white_space_rev_app (s1 s2 : string) :
  all_white_space (String.rev_app s1 s2) = all_white_space s1 && all_white_space s2.
Proof.
  revert s2. induction s1 as [|a s1 IH]; intros s2; [reflexivity|].
  cbn [String.rev_app all_white_space]. rewrite IH. cbn [all_white_space].
  destruct (is_white_space a), (all_white_space s1), (all_white_space s2); reflexivity.
Qed.

Lemma skip_white_space_empty (s : string) :
  skip_white_space s = EmptyString ↔ all_white_space s = true.
Proof.
  induction s as [|a s IH]; [done|]. cbn [skip_white_space all_white_space].
  destruct (is_white_space a); [exact IH|]. split; discriminate.
Qed.

Lemma all_white_space_skip (s : string) :
  all_white_space (skip_white_space s) = all_white_space s.
Proof.
  induction s as [|a s IH]; [reflexivity|]. cbn [skip_white_space all_white_space].
  destruct (is_white_space a) eqn:Ha; [exact IH|].
  cbn [all_white_space]. rewrite Ha. reflexivity.
Qed.

Lemma rev_empty (s : string) : String.rev s = EmptyString ↔ s = EmptyString.
Proof.
  split; [|intros ->; reflexivity]. intros Hrev.
  destruct s as [|a s]; [reflexivity|]. exfalso.
  assert (H : last_char (String.rev (String a s)) = Some a) by apply last_char_rev.
  rewrite Hrev in H. discriminate.
Qed.

(** [trim] gives the empty string exactly on white space. *)
Lemma trim_empty (s : string) : trim s = EmptyString ↔ all_white_space s = true.
Proof.
  unfold trim. rewrite rev_empty, skip_white_space_empty.
  unfold String.rev. rewrite all_white_space_rev_app, andb_true_r.
  rewrite all_white_space_skip. reflexivity.
Qed.

Lemma truthy_trim (s : string) :
  truthy_string (Some (trim s)) = negb (all_white_space s).
Proof.
  unfold truthy_string. destruct (String.eqb_spec (trim s) EmptyString) as [H|H].
  - apply trim_empty in H. rewrite H. reflexivity.
  - destruct (all_white_space s) eqn:Hs; [|reflexivity].
    apply trim_empty in Hs. contradiction.
Qed.



(** ** The answer of a scan and data URLs *)

Lemma append_cons (a : ascii) (p rest : string) :
  String.append (String a p) rest = String a (String.append p rest).
Proof. reflexivity. Qed.

Lemma append_empty (rest : string) : String.append EmptyString rest = rest.
Proof. reflexivity. Qed.

Lemma prefix_append (p s : string) :
  String.prefix p s = true → ∃ rest, s = String.append p rest.
Proof.
  revert s. induction p as [|a p IH]; intros s; [by exists s|].
  destruct s as [|b s]; [discriminate|]. cbn [String.prefix].
  destruct (ascii_dec a b) as [<-|]; [|discriminate].
  intros [rest ->]%IH. exists rest. reflexivity.
Qed.

Lemma prefix_append_same (p rest : string) : String.prefix p (String.append p rest) = true.
Proof.
  induction p as [|a p IH]; [destruct rest; reflexivity|].
  rewrite append_cons. cbn [String.prefix]. destruct (ascii_dec a a); [exact IH|done].
Qed.

Lemma prefix_comma (c : ascii) (s : string) :
  String.prefix "," (String c s) = Ascii.eqb c ",".
Proof.
  cbn [String.prefix]. destruct (ascii_dec "," c) as [<-|Hne].
  - destruct s; reflexivity.
  - symmetry. apply Ascii.eqb_neq. congruence.
Qed.

Lemma split_comma_cons (c : ascii) (s : string) :
  JsString.split "," (String c s)
  = if Ascii.eqb c ","
    then EmptyString :: JsString.split "," s
    else match JsString.split "," s with
         | piece :: pieces => String c piece :: pieces
         | [] => [String c EmptyString]
         end.
Proof.
  unfold JsString.split. cbn [JsString.split_go].
  rewrite prefix_comma. reflexivity.
Qed.

(** One piece more than there are commas. *)
Lemma split_comma_length (s : string) :
  length (JsString.split "," s) = S (count_char "," s).
Proof.
  induction s as [|c s IH]; [reflexivity|]. rewrite split_comma_cons. cbn [count_char].
  destruct (Ascii.eqb c ","); cbn [length]; [rewrite IH; reflexivity|].
  destruct (JsString.split "," s); [discriminate IH|]. exact IH.
Qed.

Lemma split_comma_pieces (s : string) :
  Forall (λ piece, count_char "," piece = 0%nat) (JsString.split "," s).
Proof.
  induction s as [|c s IH]; [repeat constructor|]. rewrite split_comma_cons.
  destruct (Ascii.eqb c ",") eqn:Hc; [constructor; [reflexivity|exact IH]|].
  destruct (JsString.split "," s) as [|piece pieces].
  - repeat constructor. cbn. rewrite Hc. reflexivity.
  - inversion IH as [|? ? Hpiece Hpieces]; subst. constructor; [|exact Hpieces].
    cbn [count_char]. rewrite Hc, Hpiece. reflexivity.
Qed.

Lemma count_char_rev_app (c : ascii) (s1 s2 : string) :
  count_char c (String.rev_app s1 s2) = (count_char c s1 + count_char c s2)%nat.
Proof.
  revert s2. induction s1 as [|a s1 IH]; intros s2; [reflexivity|].
  cbn [String.rev_app]. rewrite IH. cbn [count_char]. lia.
Qed.

Lemma count_char_skip (c : ascii) (s : string) :
  (count_char c (skip_white_space s) ≤ count_char c s)%nat.
Proof.
  induction s as [|a s IH]; [done|]. cbn [skip_white_space].
  destruct (is_white_space a); [|done]. cbn [count_char]. lia.
Qed.

Lemma count_char_trim (c : ascii) (s : string) :
  (count_char c (trim s) ≤ count_char c s)%nat.
Proof.
  unfold trim, String.rev. rewrite count_char_rev_app. cbn [count_char].
  rewrite Nat.add_0_r. etrans; [apply count_char_skip|].
  rewrite count_char_rev_app. cbn [count_char]. rewrite Nat.add_0_r.
  apply count_char_skip.
Qed.

Lemma all_white_space_no_comma (s : string) :
  all_white_space s = true → count_char "," s = 0%nat.
Proof.
  induction s as [|a s IH]; [done|]. cbn [all_white_space count_char].
  intros [Ha Hs]%andb_true_iff. rewrite (IH Hs).
  destruct (Ascii.eqb_spec a ",") as [->|_]; [discriminate Ha|reflexivity].
Qed.

(** Without the separator there is one piece, the string. *)
Lemma split_without_separator (sep s : string) :
  JsString.includes sep s = false → JsString.split sep s = [s].
Proof.
  unfold JsString.split. induction s as [|c s IH]; [reflexivity|].
  cbn [JsString.includes JsString.split_go].
  intros [Hhere Hlater]%orb_false_iff. rewrite Hhere, (IH Hlater). reflexivity.
Qed.

Lemma includes_comma (s : string) :
  JsString.includes "," s = false ↔ count_char "," s = 0%nat.
Proof.
  induction s as [|c s IH]; [done|].
  cbn [JsString.includes count_char String.prefix].
  destruct (ascii_dec "," c) as [<-|Hne].
  - destruct s; cbn; split; discriminate.
  - replace (Ascii.eqb c ",") with false by (symmetry; apply Ascii.eqb_neq; congruence).
    cbn [orb Nat.add]. exact IH.
Qed.

Lemma includes_base64_comma (s : string) :
  count_char "," s = 0%nat → JsString.includes "base64," s = false.
Proof.
  induction s as [|c s IH]; [reflexivity|]. intros Hcount.
  cbn [JsString.includes]. apply orb_false_iff. split.
  - destruct (String.prefix "base64," (String c s)) eqn:Hprefix; [|reflexivity].
    apply prefix_append in Hprefix as [rest Hrest]. rewrite Hrest in Hcount.
    rewrite !append_cons in Hcount. cbn [count_char] in Hcount.
    change (Ascii.eqb "," ",") with true in Hcount. cbv iota in Hcount. lia.
  - apply IH. cbn [count_char] in Hcount. lia.
Qed.

Lemma split_go_skip (sep passed rest : string) :
  JsString.split_go sep (String.length passed) (String.append passed rest)
  = JsString.split_go sep 0 rest.
Proof.
  induction passed as [|a passed IH]; [reflexivity|].
  rewrite append_cons. cbn [String.length JsString.split_go]. exact IH.
Qed.

(** The first piece: a head without the first character of the separator,
    then the separator. *)
Lemma split_after_head (c : ascii) (sep head rest : string) :
  count_char c head = 0%nat →
  JsString.split (String c sep) (String.append head (String.append (String c sep) rest))
  = head :: JsString.split (String c sep) rest.
Proof.
  unfold JsString.split. induction head as [|a head IH]; intros Hcount.
  - rewrite append_empty, append_cons. cbn [JsString.split_go].
    rewrite <- (append_cons c sep rest), prefix_append_same.
    cbn [String.length Nat.sub]. rewrite Nat.sub_0_r.
    f_equal. apply split_go_skip.
  - rewrite append_cons. cbn [JsString.split_go String.prefix].
    cbn [count_char] in Hcount.
    destruct (ascii_dec c a) as [<-|Hne].
    + rewrite Ascii.eqb_refl in Hcount. discriminate Hcount.
    + rewrite IH; [reflexivity|].
      destruct (Ascii.eqb a c); [discriminate Hcount|exact Hcount].
Qed.

Lemma includes_after_head (sep head rest : string) :
  JsString.includes sep (String.append head (String.append sep rest)) = true.
Proof.
  induction head as [|a head IH].
  - rewrite append_empty.
    destruct (String.append sep rest) eqn:E; cbn [JsString.includes];
      rewrite <- E, prefix_append_same; reflexivity.
  - rewrite append_cons. cbn [JsString.includes]. rewrite IH. apply orb_true_r.
Qed.

(** X3. For a response with a text, [scanIngredients] returns one name
    more than the text has commas, so never an empty list; every name is
    free of commas and of white space at its ends; and a text of white
    space only (the empty text included) gives the single empty name.
    Without a text it returns the empty list. *)
Theorem scanIngredients_names (text : string) :
  let names := GeminiService.scanIngredients (Some text) in
  length names = S (count_char "," text)
  ∧ Forall (λ name, trimmed name ∧ count_char "," name = 0%nat) names
  ∧ (all_white_space text = true → names = [EmptyString])
  ∧ GeminiService.scanIngredients None = [].
Proof.
  cbv zeta. unfold GeminiService.scanIngredients. split; [|split; [|split; [|reflexivity]]].
  - rewrite length_fmap. apply split_comma_length.
  - apply Forall_fmap. eapply Forall_impl; [apply split_comma_pieces|].
    intros piece Hpiece. cbn beta in Hpiece |- *. split; [apply trim_trimmed|].
    pose proof (count_char_trim "," piece). lia.
  - intros Hws.
    rewrite split_without_separator
      by (apply includes_comma, all_white_space_no_comma, Hws).
    cbn [fmap list_fmap]. f_equal. apply trim_empty, Hws.
Qed.

Lemma scanIngredients_names_witness :
  GeminiService.scanIngredients (Some " ") = [EmptyString].
Proof.
  apply (proj1 (proj2 (proj2 (scanIngredients_names " ")))). reflexivity.
Defined.

(** X4. For inline data without a comma, as base64 text is:
    [cleanBase64] recovers the data from the image URL that
    [generateRecipeImage] and [editRecipeImage] build, and leaves data
    that comes without the prefix as it is. In [handleScan], the piece
    taken from a data URL is the data after the first comma when the
    header has no comma, and is undefined when the URL has no comma. *)
Theorem base64_of_data_url (data : string) :
  count_char "," data = 0%nat →
  GeminiService.cleanBase64 (GeminiService.imageUrl data) = data
  ∧ GeminiService.cleanBase64 data = data
  ∧ (∀ header, count_char "," header = 0%nat →
     handleScan_base64 (String.append header (String.append "," data)) = Some data)
  ∧ handleScan_base64 data = None.
Proof.
  intros Hcount. pose proof (includes_base64_comma data Hcount) as Hnone.
  unfold GeminiService.cleanBase64, handleScan_base64, GeminiService.imageUrl.
  split; [|split; [|split]].
  - change (String.append "data:image/png;base64," data)
      with (String.append "data:image/png;" (String.append "base64," data)).
    rewrite includes_after_head, split_after_head by reflexivity.
    rewrite (split_without_separator _ _ Hnone). reflexivity.
  - rewrite Hnone. reflexivity.
  - intros header Hheader. rewrite split_after_head by exact Hheader.
    rewrite split_without_separator by (apply includes_comma, Hcount). reflexivity.
  - rewrite split_without_separator by (apply includes_comma, Hcount). reflexivity.
Qed.

Lemma base64_of_data_url_witness :
  GeminiService.cleanBase64 (GeminiService.imageUrl "QUJD") = "QUJD"
  ∧ GeminiService.cleanBase64 "QUJD" = "QUJD".
Proof.
  split.
  - apply (proj1 (base64_of_data_url "QUJD" eq_refl)).
  - apply (proj1 (proj2 (base64_of_data_url "QUJD" eq_refl))).
Defined.

(** ** The cookbook and its images *)

Lemma cookbook_ids_step (k : Component) (ev : Event) :
  (Recipe.id <$> AppState.cookbook (state k))
    `suffix_of` (Recipe.id <$> AppState.cookbook (state (step k ev))).
Proof.
  destruct (cookbook_step k ev) as [-> | (r & -> & _)]; [done|].
  cbn [fmap list_fmap]. apply suffix_cons_r. done.
Qed.

(** X5. Over any sequence of events, from any state, the ids of the
    cookbook at the start are still there at the end, in the same order
    and at the end of the list: no event removes or reorders an entry,
    new entries come in front. A reload keeps the ids as they are. *)
Theorem cookbook_only_grows (evs : list Event) (k : Component) :
  (Recipe.id <$> AppState.cookbook (state k))
    `suffix_of` (Recipe.id <$> AppState.cookbook (state (run_events evs k)))
  ∧ ∀ w, Recipe.id <$> AppState.cookbook (AppState.with_wasteSaved w (stateToSave (state k)))
         = Recipe.id <$> AppState.cookbook (state k).
Proof.
  split.
  - revert k. induction evs as [|ev evs IH]; intros k; [done|].
    change (run_events (ev :: evs) k) with (run_events evs (step k ev)).
    etrans; [apply cookbook_ids_step|apply IH].
  - intros w. cbn. apply ids_strip.
Qed.

Lemma handleMagicEdit_without_image (k : Component) (editImagePrompt : string)
    (newImage : option string) :
  (∀ active, detailRecipe (state k) = Some active →
   truthy_string (Recipe.imageUrl active) = false) →
  dispatch (handleMagicEdit editImagePrompt newImage) k = k.
Proof.
  intros Hno. unfold dispatch, handleMagicEdit. fold (detailRecipe (state k)).
  destruct (detailRecipe (state k)) as [active|]; [|reflexivity].
  rewrite (Hno active eq_refl). reflexivity.
Qed.

(** X6. Whatever the prompt and the answer of the service, an image edit
    (run on the state it was asked from) leaves the screen, the city, the
    pantry, the counter, the mode and the step index as they are, keeps
    the ids of the cookbook in place and the id of the recipe shown; it
    does nothing at all when the prompt is white space only or the recipe
    shown has no image, and leaves the state unchanged when the service
    returns no image. *)
Theorem handleMagicEdit_frame (k : Component) (editImagePrompt : string)
    (newImage : option string) :
  let k' := dispatch (handleMagicEdit editImagePrompt newImage) k in
  AppState.screen (state k') = AppState.screen (state k)
  ∧ AppState.city (state k') = AppState.city (state k)
  ∧ AppState.scannedIngredients (state k') = AppState.scannedIngredients (state k)
  ∧ AppState.wasteSaved (state k') = AppState.wasteSaved (state k)
  ∧ AppState.selectedMode (state k') = AppState.selectedMode (state k)
  ∧ currentStepIndex k' = currentStepIndex k
  ∧ Recipe.id <$> AppState.cookbook (state k') = Recipe.id <$> AppState.cookbook (state k)
  ∧ Recipe.id <$> detailRecipe (state k') = Recipe.id <$> detailRecipe (state k)
  ∧ (all_white_space editImagePrompt = true → k' = k)
  ∧ ((∀ active, detailRecipe (state k) = Some active →
      truthy_string (Recipe.imageUrl active) = false) → k' = k)
  ∧ (truthy_string newImage = false → state k' = state k).
Proof.
  cbv zeta. unfold dispatch, handleMagicEdit. rewrite truthy_trim, negb_involutive.
  fold (detailRecipe (state k)).
  destruct (detailRecipe (state k)) as [active|] eqn:Hactive;
    [|cbn; rewrite Hactive; repeat split; reflexivity].
  destruct (truthy_string (Recipe.imageUrl active)) eqn:Himage; cbn [negb orb];
    [|cbn; rewrite Hactive; repeat split; reflexivity].
  destruct (all_white_space editImagePrompt) eqn:Hprompt;
    [cbn; rewrite Hactive; repeat split; reflexivity|].
  destruct (truthy_string newImage) eqn:Hnew.
  - unfold showToast, detailRecipe in *. break_state k.
    cbn [state AppState.screen AppState.selectedCookbookRecipe AppState.currentRecipe] in *.
    destruct scr; cbn; repeat split; try discriminate; try reflexivity;
      try (intros Hno; specialize (Hno _ eq_refl); congruence).
    all: destruct sel; simplify_eq/=; try reflexivity.
    all: exact (ids_replace (Recipe.with_imageUrl newImage active) book).
  - unfold showToast. cbn. rewrite Hactive. repeat split; try discriminate.
    intros Hno. specialize (Hno _ eq_refl). congruence.
Qed.

Lemma handleMagicEdit_frame_witness :
  dispatch (handleMagicEdit "   " (Some "data:image/png;base64,QUJD")) detailOpened
  = detailOpened.
Proof.
  apply (proj1 (proj2 (proj2 (proj2 (proj2 (proj2 (proj2 (proj2 (proj2
    (handleMagicEdit_frame detailOpened "   " (Some "data:image/png;base64,QUJD"))))))))))).
  reflexivity.
Defined.

(** X7. After a reload an image edit does nothing, whatever the prompt
    and whatever the service would answer: the persisted copy has lost
    every image, and [handleMagicEdit] returns at once on a recipe
    without image. *)
Theorem no_image_edit_after_reload (k : Component) (w : number)
    (editImagePrompt : string) (newImage : option string) :
  let reloaded := mkComponent (AppState.with_wasteSaved w (stateToSave (state k))) 0 None in
  dispatch (handleMagicEdit editImagePrompt newImage) reloaded = reloaded.
Proof.
  cbv zeta. apply handleMagicEdit_without_image. intros active.
  destruct (stateToSave_stripped (state k)) as (Hcur & Hsel & _).
  unfold detailRecipe.
  cbn [state AppState.with_wasteSaved AppState.selectedCookbookRecipe AppState.currentRecipe].
  destruct (AppState.selectedCookbookRecipe (stateToSave (state k))) as [r|] eqn:Hr.
  - intros [= <-]. rewrite (Hsel r eq_refl). reflexivity.
  - intros Hactive. rewrite (Hcur active Hactive). reflexivity.
Qed.

(** ** Navigation *)

(** X8. In every state the application goes through, the detail screen
    shows a recipe selected from the cookbook: its back button is offered
    and leads to the cookbook (never to the result screen), changing
    nothing else, and "Cook Now" starts cooking that recipe, with the
    defaults of [safeRecipe], at the first step. *)
Theorem detail_back_returns_to_cookbook (k : Component) :
  reachable k → AppState.screen (state k) = RECIPE_DETAIL →
  enabled k DetailBack = true
  ∧ state (step k DetailBack) = AppState.with_screen COOKBOOK (state k)
  ∧ ∃ recipe, AppState.selectedCookbookRecipe (state k) = Some recipe
              ∧ AppState.currentRecipe (state (step k CookNow))
                = Some (safeRecipe_typed recipe)
              ∧ AppState.screen (state (step k CookNow)) = COOKING
              ∧ currentStepIndex (step k CookNow) = 0.
Proof.
  intros (Hdetail & _ & _)%reachable_screen_invariant Hscr.
  destruct (Hdetail Hscr) as [recipe Hsel]. break_state k.
  cbn in Hscr, Hsel. subst scr sel. split; [reflexivity|]. split; [reflexivity|].
  exists recipe. repeat split.
Qed.

Lemma detail_back_returns_to_cookbook_witness :
  enabled detailOpened DetailBack = true
  ∧ state (step detailOpened DetailBack) = AppState.with_screen COOKBOOK (state detailOpened).
Proof.
  assert (Hreach : reachable detailOpened).
  { unfold detailOpened. cbn [run_events fold_left].
    repeat (apply reachable_step; [|reflexivity]). apply reachable_fresh. }
  destruct (detail_back_returns_to_cookbook detailOpened Hreach eq_refl) as (H1 & H2 & _).
  split; assumption.
Defined.








Lemma append_not_empty (a b : string) :
  truthy_string (Some a) = true ∨ truthy_string (Some b) = true →
  truthy_string (Some (a +:+ b)) = true.
Proof. destruct a, b; intros [H|H]; (exact H || reflexivity). Qed.

(** [handleReadAloud] calls [speak] unless the screen is SUCCESS, or
    COOKING without a recipe. *)
Lemma handleReadAloud_silent (Number_toString : number → string) (k : Component) :
  handleReadAloud Number_toString k = None
  ↔ AppState.screen (state k) = SUCCESS
    ∨ (AppState.screen (state k) = COOKING ∧ AppState.currentRecipe (state k) = None).
Proof.
  unfold handleReadAloud.
  destruct (AppState.screen (state k)) eqn:Hscr;
    try (cbn; split; [discriminate|intros [?|[? _]]; discriminate]).
  - destruct (AppState.currentRecipe (state k)).
    + rewrite append_not_empty by (right; apply append_not_empty; left; reflexivity).
      split; [discriminate|intros [?|[? _]]; discriminate].
    + cbn. split; [discriminate|intros [?|[? _]]; discriminate].
  - destruct (AppState.currentRecipe (state k)).
    + rewrite append_not_empty by (left; reflexivity).
      split; [discriminate|intros [?|[_ ?]]; discriminate].
    + cbn. split; [intros _; right; done|done].
  - destruct (AppState.selectedCookbookRecipe (state k)).
    + rewrite append_not_empty by (right; apply append_not_empty; left; reflexivity).
      split; [discriminate|intros [?|[? _]]; discriminate].
    + cbn. split; [discriminate|intros [?|[? _]]; discriminate].
  - cbn. split; [intros _; left; done|done].
Qed.

(** X11. In every state the application goes through, whatever way
    numbers are printed, [handleReadAloud] has a text for [speak] on every
    screen but SUCCESS (where no control calls it). While cooking it reads
    "Step i+1: " and then the step at the index when the recipe has
    steps, and the word "undefined" when it has none. *)
Theorem read_aloud_speaks (Number_toString : number → string) (k : Component) :
  reachable k →
  (handleReadAloud Number_toString k = None ↔ AppState.screen (state k) = SUCCESS)
  ∧ (AppState.screen (state k) = COOKING →
     ∃ recipe, AppState.currentRecipe (state k) = Some recipe
       ∧ handleReadAloud Number_toString k
         = Some ("Step " +:+ Number_toString (of_Z (currentStepIndex k + 1)) +:+ ": "
                 +:+ step_text (Recipe.steps recipe) (currentStepIndex k))
       ∧ (Recipe.steps recipe ≠ [] →
          Recipe.steps recipe !! Z.to_nat (currentStepIndex k)
          = Some (step_text (Recipe.steps recipe) (currentStepIndex k)))
       ∧ (Recipe.steps recipe = [] →
          step_text (Recipe.steps recipe) (currentStepIndex k) = "undefined")).
Proof.
  intros (_ & Hcur & Hidx)%reachable_screen_invariant. split.
  - rewrite handleReadAloud_silent. split; [|auto].
    intros [Hscr|[Hscr Hnone]]; [exact Hscr|].
    rewrite Hscr in Hcur. specialize (Hcur eq_refl). rewrite Hnone in Hcur.
    destruct Hcur as [? [=]].
  - intros Hscr. rewrite Hscr in Hcur. destruct (Hcur eq_refl) as [recipe Hrecipe].
    exists recipe. split; [exact Hrecipe|]. split; [|split].
    + unfold handleReadAloud. rewrite Hscr, Hrecipe.
      rewrite append_not_empty by (left; reflexivity). reflexivity.
    + intros Hsteps. specialize (Hidx Hscr recipe Hrecipe Hsteps). unfold step_text.
      replace (currentStepIndex k <? 0) with false by (symmetry; apply Z.ltb_ge; lia).
      destruct (lookup_lt_is_Some_2 (Recipe.steps recipe) (Z.to_nat (currentStepIndex k)))
        as [text Htext]; [lia|].
      rewrite Htext. reflexivity.
    + intros ->. unfold step_text. case_match; [reflexivity|].
      rewrite lookup_nil. reflexivity.
Qed.

Lemma read_aloud_speaks_witness :
  handleReadAloud (λ _, "1") cookingTwoSteps = None
  ↔ AppState.screen (state cookingTwoSteps) = SUCCESS.
Proof.
  apply (proj1 (read_aloud_speaks (λ _, "1") cookingTwoSteps
    ltac:(unfold cookingTwoSteps; cbn [run_events fold_left];
          repeat (apply reachable_step; [|reflexivity]); apply reachable_fresh))).
Defined.

(** ** The safety badge *)

Lemma floor_at_least (z : Z) (x : Q) : z ≤ Qfloor x ↔ (inject_Z z <= x)%Q.
Proof.
  split.
  - intros Hz. apply Qle_trans with (inject_Z (Qfloor x)); [|apply Qfloor_le].
    rewrite <- Zle_Qle. exact Hz.
  - intros Hz. rewrite <- (Qfloor_Z z). apply Qfloor_resp_le, Hz.
Qed.

(** A rounded value reaches an integer from half a point below it. *)
Lemma round_at_least (z : Z) (q : Q) :
  ge (Math_round (Fin q)) (of_Z z) = true ↔ (inject_Z z - (1 # 2) <= q)%Q.
Proof.
  unfold ge, Math_round, of_Z, le. rewrite Qle_bool_iff, <- Zle_Qle, floor_at_least.
  split; intros H.
  - apply (Qplus_le_l _ _ (1 # 2)). ring_simplify. ring_simplify in H. exact H.
  - apply (Qplus_le_l _ _ (1 # 2)) in H. ring_simplify in H. ring_simplify. exact H.
Qed.

Lemma round_below (z : Z) (q : Q) :
  ge (Math_round (Fin q)) (of_Z z) = false ↔ (q < inject_Z z - (1 # 2))%Q.
Proof.
  rewrite <- not_true_iff_false, round_at_least. split.
  - apply Qnot_le_lt.
  - intros H Hle. exact (Qlt_not_le _ _ H Hle).
Qed.

(** A number from 1 to 100 is a percentage: it is rounded as it is. *)
Lemma normalizeScore_percentage (q : Q) :
  (1 <= q)%Q → (q <= 100)%Q → normalizeScore (PNumber (Fin q)) = Math_round (Fin q).
Proof.
  intros Hlow Hhigh. unfold normalizeScore, parseFloat_String_replace.
  cbn [String_ gt lt of_Z].
  replace (Qltb q (inject_Z 1)) with false by (symmetry; apply Qltb_ge, Hlow).
  rewrite andb_false_r.
  replace (Qltb (inject_Z 100) q) with false by (symmetry; apply Qltb_ge, Hhigh).
  reflexivity.
Qed.

Lemma getSafetyColor_cases (raw : primitive) :
  let s := normalizeScore raw in
  (getSafetyColor raw = "bg-emerald-500" ↔ ge s (of_Z 80) = true)
  ∧ (getSafetyColor raw = "bg-orange-500" ↔ ge s (of_Z 80) = false ∧ ge s (of_Z 60) = true)
  ∧ (getSafetyColor raw = "bg-red-500" ↔ ge s (of_Z 80) = false ∧ ge s (of_Z 60) = false).
Proof.
  cbv zeta. unfold getSafetyColor.
  destruct (ge (normalizeScore raw) (of_Z 80)), (ge (normalizeScore raw) (of_Z 60));
    repeat split; try discriminate; try tauto; intros [? ?]; discriminate.
Qed.

(** X12. For a score given as a number from 1 to 100, the badge is green
    from 79.5 on, orange from 59.5 up to 79.5 and red below 59.5, exactly
    one of the three; and the result screen recommends the hack path
    exactly when the score is at least 74.5 and the recipe has at most
    three hacks. The half points come from the rounding of
    [normalizeScore]. *)
Theorem safety_badge_thresholds (q : Q) :
  (1 <= q)%Q → (q <= 100)%Q →
  let colour := getSafetyColor (PNumber (Fin q)) in
  (colour = "bg-emerald-500" ↔ (159 # 2 <= q)%Q)
  ∧ (colour = "bg-orange-500" ↔ (119 # 2 <= q)%Q ∧ (q < 159 # 2)%Q)
  ∧ (colour = "bg-red-500" ↔ (q < 119 # 2)%Q)
  ∧ ∀ recipe, Recipe.safety_score recipe = Fin q →
      (recommendedId recipe = 1
       ↔ (149 # 2 <= q)%Q ∧ (length (Recipe.hacks recipe) ≤ 3)%nat).
Proof.
  intros Hlow Hhigh. cbv zeta.
  destruct (getSafetyColor_cases (PNumber (Fin q))) as (Hgreen & Horange & Hred).
  rewrite Hgreen, Horange, Hred, (normalizeScore_percentage q Hlow Hhigh).
  rewrite !round_below, !round_at_least.
  change (inject_Z 80 - (1 # 2))%Q with (159 # 2)%Q.
  change (inject_Z 60 - (1 # 2))%Q with (119 # 2)%Q.
  split; [reflexivity|]. split; [tauto|]. split.
  - split; [tauto|]. intros H. split; [|exact H].
    apply Qlt_trans with (119 # 2)%Q; [exact H|reflexivity].
  - intros recipe Hscore. unfold recommendedId.
    rewrite Hscore, (normalizeScore_percentage q Hlow Hhigh).
    destruct (ge (Math_round (Fin q)) (of_Z 75)) eqn:Hge.
    + apply round_at_least in Hge. change (inject_Z 75 - (1 # 2))%Q with (149 # 2)%Q in Hge.
      cbn [andb]. destruct (Nat.leb_spec (length (Recipe.hacks recipe)) 3).
      * split; [auto|reflexivity].
      * split; [discriminate|]. intros [_ ?]. lia.
    + apply round_below in Hge. change (inject_Z 75 - (1 # 2))%Q with (149 # 2)%Q in Hge.
      cbn [andb]. split; [discriminate|]. intros [Hq _].
      destruct (Qlt_not_le _ _ Hge Hq).
Qed.

Lemma safety_badge_thresholds_witness :
  getSafetyColor (PNumber (Fin (159 # 2))) = "bg-emerald-500".
Proof.
  apply (proj1 (safety_badge_thresholds (159 # 2)
    ltac:(unfold Qle; cbn; lia) ltac:(unfold Qle; cbn; lia))).
  unfold Qle. cbn. lia.
Defined.

(** ** Reload *)

(** X13. Round trip through the store: when the store accepts both
    writes, neither text is empty and [JSON.parse] reads the serialised
    copy back, the state that a reload starts from is the copy without
    images of the state that was persisted, with the counter that
    [parseInt] reads in the printed counter (so a counter printed as 12.5
    comes back as 12). *)
Theorem reload_restores_persisted_state
    (JSON_stringify : AppState.t → string) (JSON_parse : string → option AppState.t)
    (Number_toString : number → string) (quota : gmap string string → bool)
    (s : AppState.t) (localStorage : gmap string string) :
  let text := JSON_stringify (stateToSave s) in
  let counter := Number_toString (AppState.wasteSaved s) in
  let stored := persist JSON_stringify Number_toString quota s localStorage in
  quota (<["rescue_chef_state" := text]> localStorage) = true →
  quota (<["totalSavings" := counter]> (<["rescue_chef_state" := text]> localStorage)) = true →
  text ≠ EmptyString → counter ≠ EmptyString →
  JSON_parse text = Some (stateToSave s) →
  initialState JSON_parse stored
  = Some (AppState.with_wasteSaved (parseInt10 counter) (stateToSave s)).
Proof.
  cbv zeta. intros Hfirst Hsecond Htext Hcounter Hparse.
  set (text := JSON_stringify (stateToSave s)) in *.
  set (counter := Number_toString (AppState.wasteSaved s)) in *.
  set (written := <["totalSavings" := counter]> (<["rescue_chef_state" := text]> localStorage)) in *.
  assert (Hstored : persist JSON_stringify Number_toString quota s localStorage = written).
  { unfold persist, setItem. fold text. rewrite Hfirst. fold counter. fold written.
    rewrite Hsecond. reflexivity. }
  assert (Hstate : written !! "rescue_chef_state" = Some text).
  { unfold written. rewrite lookup_insert_ne by discriminate. apply lookup_insert_eq. }
  assert (Hcount : written !! "totalSavings" = Some counter) by apply lookup_insert_eq.
  rewrite Hstored.
  unfold initialState. rewrite Hstate, Hcount. cbn [truthy_string default]. unfold id.
  destruct (String.eqb_spec text EmptyString); [done|].
  destruct (String.eqb_spec counter EmptyString); [done|].
  cbn [negb]. rewrite Hparse. reflexivity.
Qed.

Lemma reload_restores_persisted_state_witness :
  initialState (λ _, Some (stateToSave defaultState))
    (persist (λ _, "{}") (λ _, "12.5") (λ _, true) defaultState (∅ : gmap string string))
  = Some (AppState.with_wasteSaved (parseInt10 "12.5") (stateToSave defaultState))
  ∧ parseInt10 "12.5" = of_Z 12.
Proof.
  split; [|reflexivity].
  apply (reload_restores_persisted_state (λ _, "{}") (λ _, Some (stateToSave defaultState))
           (λ _, "12.5") (λ _, true) defaultState ∅); (reflexivity || discriminate).
Defined.

(** ** The flag of the service *)

(** X14. [isHackRecommended] is true exactly when every hack has a score
    that compares at least 70 and a risk other than High: so it is true
    of a recipe without hacks, false as soon as one score is [NaN], and
    the flag of two lists together is the conjunction of their flags. *)
Theorem isHackRecommended_every (hacks : list SubstitutionHack.t) :
  (GeminiService.isHackRecommended hacks = true
   ↔ ∀ h, h ∈ hacks →
       ge (SubstitutionHack.effectiveness_score h) (of_Z 70) = true
       ∧ SubstitutionHack.safety_risk h ≠ RiskHigh)
  ∧ (∀ h, h ∈ hacks → SubstitutionHack.effectiveness_score h = NaN →
     GeminiService.isHackRecommended hacks = false)
  ∧ (∀ more, GeminiService.isHackRecommended (hacks ++ more)
             = GeminiService.isHackRecommended hacks
               && GeminiService.isHackRecommended more)
  ∧ GeminiService.isHackRecommended [] = true.
Proof.
  assert (Hall : GeminiService.isHackRecommended hacks = true
   ↔ ∀ h, h ∈ hacks →
       ge (SubstitutionHack.effectiveness_score h) (of_Z 70) = true
       ∧ SubstitutionHack.safety_risk h ≠ RiskHigh).
  { unfold GeminiService.isHackRecommended. rewrite forallb_forall. split.
    - intros H h Hh%list_elem_of_In. specialize (H h Hh).
      apply andb_true_iff in H as [H1 H2]. split; [exact H1|].
      destruct (SubstitutionHack.safety_risk h); done.
    - intros H h Hh%list_elem_of_In. destruct (H h Hh) as [H1 H2].
      rewrite H1. destruct (SubstitutionHack.safety_risk h); done. }
  split; [exact Hall|]. split; [|split; [|reflexivity]].
  - intros h Hh Hnan. apply not_true_iff_false. rewrite Hall. intros H.
    destruct (H h Hh) as [Hscore _]. rewrite Hnan in Hscore. discriminate Hscore.
  - intros more. unfold GeminiService.isHackRecommended. apply forallb_app.
Qed.

Lemma isHackRecommended_every_witness :
  GeminiService.isHackRecommended
    [SubstitutionHack.mk "butter" "olive oil" "2 tbsp" NaN RiskLow "same fat"] = false.
Proof.
  apply (proj1 (proj2 (isHackRecommended_every
    [SubstitutionHack.mk "butter" "olive oil" "2 tbsp" NaN RiskLow "same fat"]))
    (SubstitutionHack.mk "butter" "olive oil" "2 tbsp" NaN RiskLow "same fat")).
  - apply list_elem_of_singleton. reflexivity.
  - reflexivity.
Defined.

(** ** Decoded audio *)

Lemma pairs_ind (P : list Byte.byte → Prop) :
  P [] → (∀ b, P [b]) → (∀ lo hi data, P data → P (lo :: hi :: data)) → ∀ data, P data.
Proof.
  intros Hnil Hone Hpair.
  assert (H : ∀ n data, (length data ≤ n)%nat → P data).
  { induction n as [|n IH]; intros [|lo [|hi data]] Hlen; cbn [length] in Hlen;
      try done; try lia. apply Hpair, IH. lia. }
  intros data. apply (H (length data)). done.
Qed.

(** The 16-bit view has half as many elements as there are bytes, each
    in the range of a signed 16-bit integer. *)
Lemma Int16Array_samples (data : list Byte.byte) (samples : list Z) :
  GeminiService.Int16Array data = Some samples →
  length data = (2 * length samples)%nat ∧ Forall int16 samples.
Proof.
  revert samples. induction data as [|b|lo hi data IH] using pairs_ind; intros samples.
  - intros [= <-]. split; [reflexivity|constructor].
  - discriminate.
  - cbn [GeminiService.Int16Array].
    destruct (GeminiService.Int16Array data) as [rest|]; [|discriminate].
    intros [= <-]. destruct (IH rest eq_refl) as [Hlen Hall]. split.
    + cbn [length]. lia.
    + constructor; [|exact Hall]. unfold int16.
      pose proof (Byte.to_N_bounded lo). pose proof (Byte.to_N_bounded hi).
      case_match; rewrite ?Z.ltb_lt, ?Z.ltb_ge in *; lia.
Qed.

Lemma Int16Array_odd (data : list Byte.byte) :
  GeminiService.Int16Array data = None ↔ Nat.odd (length data) = true.
Proof.
  induction data as [|b|lo hi data IH] using pairs_ind.
  - done.
  - done.
  - cbn [GeminiService.Int16Array length]. rewrite <- IH.
    destruct (GeminiService.Int16Array data); cbn; split; done.
Qed.

Lemma sample_range (x : Z) : int16 x → (- (1) <= inject_Z x / inject_Z 32768 < 1)%Q.
Proof.
  intros [Hlow Hhigh]. split.
  - apply Qle_shift_div_l; [reflexivity|].
    change (- (1) * inject_Z 32768)%Q with (inject_Z (-32768)).
    rewrite <- Zle_Qle. exact Hlow.
  - apply Qlt_shift_div_r; [reflexivity|].
    change (1 * inject_Z 32768)%Q with (inject_Z 32768).
    rewrite <- Zlt_Qlt. lia.
Qed.

(** X15. [decodeAudioData] fails exactly when the number of bytes is odd,
    there is no channel, or the bytes do not make one frame; otherwise it
    gives as many channels as asked, each with one sample per complete
    frame (the 16-bit values over the channels, rounded down), and every
    sample lies in [-1, 1). *)
Theorem decodeAudioData_samples (data : list Byte.byte) (numChannels : nat) :
  (GeminiService.decodeAudioData data numChannels = None
   ↔ Nat.odd (length data) = true ∨ numChannels = 0%nat
     ∨ (length data / 2 < numChannels)%nat)
  ∧ ∀ channels, GeminiService.decodeAudioData data numChannels = Some channels →
      length channels = numChannels
      ∧ Forall (λ samples,
                  length samples = (length data / 2 / numChannels)%nat
                  ∧ Forall (λ x, (- (1) <= x < 1)%Q) samples) channels.
Proof.
  unfold GeminiService.decodeAudioData.
  destruct (GeminiService.Int16Array data) as [dataInt16|] eqn:Hdata.
  - destruct (Int16Array_samples data dataInt16 Hdata) as [Hlen Hall].
    assert (Hhalf : (length data / 2)%nat = length dataInt16).
    { rewrite Hlen, Nat.mul_comm. apply Nat.div_mul. done. }
    assert (Heven : Nat.odd (length data) = false).
    { apply not_true_iff_false. rewrite <- Int16Array_odd, Hdata. done. }
    cbn [mbind option_bind]. rewrite Hhalf, Heven.
    destruct (Nat.eqb_spec numChannels 0) as [->|Hchannels]; cbn [orb].
    { split; [split; [auto|done]|discriminate]. }
    destruct (Nat.eqb_spec (length dataInt16 / numChannels) 0) as [Hnone|Hframes].
    { split; [|discriminate]. split; [|done]. intros _. right. right.
      apply Nat.div_small_iff in Hnone; done. }
    split.
    + split; [discriminate|]. intros [?|[?|Hshort]]; [done..|].
      apply Nat.div_small_iff in Hshort; done.
    + intros channels [= <-]. rewrite length_fmap, length_seq. split; [reflexivity|].
      apply Forall_fmap, Forall_forall. intros channel Hchannel%elem_of_seq. cbn.
      rewrite length_fmap, length_seq. split; [reflexivity|].
      apply Forall_fmap, Forall_forall. intros i Hi%elem_of_seq. cbn.
      apply sample_range.
      assert (Hin : (i * numChannels + channel < length dataInt16)%nat).
      { pose proof (Nat.div_mod_eq (length dataInt16) numChannels).
        pose proof (Nat.mod_upper_bound (length dataInt16) numChannels Hchannels). nia. }
      rewrite Forall_forall in Hall. apply Hall. apply list_elem_of_In, nth_In, Hin.
  - cbn [mbind option_bind]. apply Int16Array_odd in Hdata.
    split; [|discriminate]. split; [auto|done].
Qed.

Lemma decodeAudioData_samples_witness :
  let channels := [[(inject_Z (-32768) / inject_Z 32768)%Q; (inject_Z 1 / inject_Z 32768)%Q]] in
  length channels = 1%nat
  ∧ Forall (λ samples, length samples = 2%nat
                       ∧ Forall (λ x, (- (1) <= x < 1)%Q) samples) channels.
Proof.
  cbv zeta.
  apply (proj2 (decodeAudioData_samples [Byte.x00; Byte.x80; Byte.x01; Byte.x00] 1)).
  reflexivity.
Defined.

(** ** The step timer *)

Ltac timer_cases :=
  unfold timer_invariant, Timer.step, Timer.enabled, Timer.effect, Timer.handle,
    Timer.tick, Timer.toggle, Timer.armed, Timer.total in *;
  cbn [Timer.minutes Timer.seconds Timer.isActive] in *;
  repeat (case_match; cbn [Timer.minutes Timer.seconds Timer.isActive negb andb orb] in * );
  rewrite ?andb_true_iff, ?andb_false_iff, ?orb_true_iff, ?orb_false_iff,
    ?Z.ltb_lt, ?Z.ltb_ge, ?Z.eqb_eq, ?Z.eqb_neq, ?negb_true_iff, ?negb_false_iff in *.

Ltac timer_solve :=
  timer_cases; subst; try discriminate;
  repeat match goal with
         | H : ?a = ?a → _ |- _ => specialize (H eq_refl)
         | H : _ ∧ _ |- _ => destruct H
         end;
  repeat split; try discriminate; try reflexivity; try lia; try (intros; lia).

Lemma timer_invariant_step (s : Timer.t) (ev : Timer.Event) :
  timer_invariant s → Timer.enabled s ev = true → timer_invariant (Timer.step s ev).
Proof.
  destruct s as [m sec act], ev; intros Hinv Hen; timer_cases; subst;
    try discriminate; intuition (try discriminate; lia).
Qed.



Lemma tick_counts_down (s : Timer.t) :
  timer_invariant s → Timer.isActive s = true →
  Timer.enabled s Timer.Tick = true
  ∧ Timer.total (Timer.step s Timer.Tick) = Timer.total s - 1
  ∧ Timer.isActive (Timer.step s Timer.Tick) = (0 <? Timer.total s - 1)
  ∧ timer_invariant (Timer.step s Timer.Tick).
Proof.
  destruct s as [m sec act]. intros Hinv Hact. cbn in Hact. subst act.
  assert (Hen : Timer.enabled (Timer.mk m sec true) Timer.Tick = true).
  { timer_solve. }
  split; [exact Hen|]. split; [|split; [|apply timer_invariant_step; assumption]].
  - clear Hen. timer_solve.
  - clear Hen. unfold Timer.total.
    destruct (Z.ltb_spec 0 (60 * Timer.minutes (Timer.mk m sec true)
                            + Timer.seconds (Timer.mk m sec true) - 1));
      timer_solve.
Qed.

Lemma ticks_count_down (n : nat) (s : Timer.t) :
  timer_invariant s → Timer.isActive s = true → Z.of_nat n ≤ Timer.total s →
  timer_invariant (Timer.ticks n s)
  ∧ Timer.total (Timer.ticks n s) = Timer.total s - Z.of_nat n
  ∧ Timer.isActive (Timer.ticks n s) = (Z.of_nat n <? Timer.total s).
Proof.
  intros Hinv Hact. induction n as [|n IH]; intros Hn.
  - change (Timer.ticks 0 s) with s. split; [exact Hinv|]. split; [lia|].
    rewrite Hact. symmetry. apply Z.ltb_lt. destruct Hinv as (_ & _ & Hpos).
    apply Hpos, Hact.
  - destruct IH as (IHinv & IHtotal & IHact); [lia|].
    assert (Hrunning : Timer.isActive (Timer.ticks n s) = true).
    { rewrite IHact. apply Z.ltb_lt. lia. }
    destruct (tick_counts_down (Timer.ticks n s) IHinv Hrunning)
      as (_ & Htotal & Hactive & Hinv').
    unfold Timer.ticks in *. rewrite Nat.iter_succ.
    split; [exact Hinv'|]. split; [lia|]. rewrite Hactive, IHtotal.
    destruct (Z.ltb_spec 0 (Timer.total s - Z.of_nat n - 1)),
             (Z.ltb_spec (Z.of_nat (S n)) (Timer.total s)); (reflexivity || lia).
Qed.

Lemma stopped_at_zero (s : Timer.t) :
  timer_invariant s → Timer.total s = 0 → Timer.isActive s = false →
  s = Timer.mk 0 0 false.
Proof.
  destruct s as [m sec act]. unfold timer_invariant, Timer.total. cbn.
  intros (Hm & Hs & _) Htotal ->. f_equal; lia.
Qed.

(** X17. A running timer that shows a time counts down one second per
    firing of the interval: after n firings, n at most the seconds left,
    it shows n seconds less; while time is left it is still running and
    the interval still fires; and at the firing that uses up the time it
    shows 00:00, has stopped by itself, and the interval fires no more. *)
Theorem timer_counts_down (n : nat) (s : Timer.t) :
  timer_invariant s → Timer.isActive s = true → Z.of_nat n ≤ Timer.total s →
  Timer.total (Timer.ticks n s) = Timer.total s - Z.of_nat n
  ∧ (Z.of_nat n < Timer.total s →
     Timer.isActive (Timer.ticks n s) = true
     ∧ Timer.enabled (Timer.ticks n s) Timer.Tick = true)
  ∧ (Z.of_nat n = Timer.total s →
     Timer.ticks n s = Timer.mk 0 0 false
     ∧ Timer.enabled (Timer.ticks n s) Timer.Tick = false).
Proof.
  intros Hinv Hact Hn.
  destruct (ticks_count_down n s Hinv Hact Hn) as (Hinv' & Htotal & Hactive).
  split; [exact Htotal|]. split.
  - intros Hless. assert (Hrunning : Timer.isActive (Timer.ticks n s) = true).
    { rewrite Hactive. apply Z.ltb_lt, Hless. }
    split; [exact Hrunning|]. apply (tick_counts_down _ Hinv' Hrunning).
  - intros Hlast. assert (Hzero : Timer.ticks n s = Timer.mk 0 0 false).
    { apply stopped_at_zero; [exact Hinv'|lia|].
      rewrite Hactive. apply Z.ltb_ge. lia. }
    rewrite Hzero. split; reflexivity.
Qed.

Lemma timer_counts_down_witness :
  Timer.ticks 60 (Timer.mk 1 0 true) = Timer.mk 0 0 false
  ∧ Timer.enabled (Timer.ticks 60 (Timer.mk 1 0 true)) Timer.Tick = false.
Proof.
  apply (proj2 (proj2 (timer_counts_down 60 (Timer.mk 1 0 true)
    ltac:(unfold timer_invariant, Timer.total; cbn; lia) eq_refl
    ltac:(unfold Timer.total; cbn; lia)))).
  reflexivity.
Defined.

(** X18. On a stopped timer that shows a time: Start at 00:00 has no
    effect (the timer stops again at once); with time left, Start sets it
    running and Stop then gives the timer back as it was; +M adds sixty
    seconds and -M after it takes them back; and -M at zero minutes does
    nothing. *)
Theorem timer_buttons (s : Timer.t) :
  timer_invariant s → Timer.isActive s = false →
  (Timer.total s = 0 → Timer.step s Timer.Toggle = s)
  ∧ (0 < Timer.total s →
     Timer.step s Timer.Toggle = Timer.mk (Timer.minutes s) (Timer.seconds s) true
     ∧ Timer.step (Timer.step s Timer.Toggle) Timer.Toggle = s)
  ∧ Timer.step (Timer.step s Timer.PlusM) Timer.MinusM = s
  ∧ (Timer.minutes s = 0 → Timer.step s Timer.MinusM = s)
  ∧ Timer.total (Timer.step s Timer.PlusM) = Timer.total s + 60.
Proof.
  destruct s as [m sec act]. intros Hinv Hact. cbn in Hact. subst act.
  repeat split; intros; timer_solve; f_equal; lia.
Qed.

Lemma timer_buttons_witness :
  Timer.step (Timer.step (Timer.mk 2 30 false) Timer.PlusM) Timer.MinusM
  = Timer.mk 2 30 false.
Proof.
  apply (proj1 (proj2 (proj2 (timer_buttons (Timer.mk 2 30 false)
    ltac:(unfold timer_invariant, Timer.total; cbn; lia) eq_refl)))).
Defined.

(** ** The theme *)

(** X19. [toggleTheme] always gives light or dark, and dark exactly from
    light; two toggles give the theme back exactly when it was light or
    dark. When the store accepts the write of the effect, a reload
    starts from the theme that was written, unless that is the empty
    string, which reloads as light; the write touches no other key. *)
Theorem theme_toggle_and_reload (theme : string) :
  (Theme.toggleTheme theme = "light" ∨ Theme.toggleTheme theme = "dark")
  ∧ Theme.dark_mode (Theme.toggleTheme theme) = String.eqb theme "light"
  ∧ (Theme.toggleTheme (Theme.toggleTheme theme) = theme
     ↔ theme = "light" ∨ theme = "dark")
  ∧ ∀ quota localStorage stored,
      Theme.effect quota theme localStorage = Some stored →
      Theme.initial stored = (if String.eqb theme "" then "light" else theme)
      ∧ ∀ key, key ≠ "theme" → stored !! key = localStorage !! key.
Proof.
  unfold Theme.toggleTheme, Theme.dark_mode. split; [|split; [|split]].
  - destruct (String.eqb theme "light"); auto.
  - destruct (String.eqb theme "light"); reflexivity.
  - destruct (String.eqb_spec theme "light") as [->|Hlight].
    + split; [auto|reflexivity].
    + change (String.eqb "light" "light") with true. cbv iota. split.
      * intros <-. right. reflexivity.
      * intros [Htheme|Htheme]; [contradiction|]. symmetry. exact Htheme.
  - intros quota localStorage stored. unfold Theme.effect, setItem.
    destruct (quota _); [|discriminate]. intros [= <-]. split.
    + unfold Theme.initial. rewrite lookup_insert_eq. unfold truthy_string.
      destruct (String.eqb theme ""); reflexivity.
    + intros key Hkey. rewrite lookup_insert_ne by congruence. reflexivity.
Qed.

Lemma theme_toggle_and_reload_witness :
  Theme.initial (<["theme" := "dark"]> ∅) = "dark".
Proof.
  apply (proj1 (proj2 (proj2 (proj2 (theme_toggle_and_reload "dark")))
    (λ _, true) ∅ (<["theme" := "dark"]> ∅) eq_refl)).
Defined.
